(** * datadog-ci: the synthetics run-tests command and the dependencies upload command

    A shallow embedding of [src/commands/synthetics/run-test.ts] and
    [src/commands/dependencies/upload.ts].  Both commands are asynchronous
    methods that talk to collaborators (the remote API, the reporter, the
    tunnel, the file system).  Every collaborator call is modelled by an
    oracle giving its outcome (a value or a thrown error), and every
    observable action is appended to a trace, so that statements such as
    "the upload request is sent at most n times" or "the tunnel is stopped"
    are statements about the trace of a run. *)

From stdpp Require Import gmap strings list fin_maps sorting.
From Stdlib Require Import ZArith Lia.

Set Warnings "-clear-no-such-hyp".

Local Open Scope Z_scope.

(** ** Effects: a trace of events and a thrown error *)

Module Eff.
Section Eff.
Context {Ev Err : Type}.

(** A computation yields the events it performed and either the error it
    threw ([inl]) or its value ([inr]). *)
Definition t (A : Type) : Type := (list Ev * (Err + A))%type.

Definition ret {A} (a : A) : t A := ([], inr a).
Definition throw {A} (e : Err) : t A := ([], inl e).
Definition emit (ev : Ev) : t unit := ([ev], inr tt).

Definition bind {A B} (m : t A) (k : A → t B) : t B :=
  match m with
  | (tr, inl e) => (tr, inl e)
  | (tr, inr a) => let '(tr', r) := k a in (tr ++ tr', r)
  end.

(** [try { m } catch (e) { h e }] *)
Definition try_catch {A} (m : t A) (h : Err → t A) : t A :=
  match m with
  | (tr, inl e) => let '(tr', r) := h e in (tr ++ tr', r)
  | (tr, inr a) => (tr, inr a)
  end.

(** [try { m } finally { f }] where [f] has no [return] of its own: the
    outcome of [m] stands unless [f] throws. *)
Definition try_finally {A} (m : t A) (f : t unit) : t A :=
  let '(tr, r) := m in
  match f with
  | (tr', inl e) => (tr ++ tr', inl e)
  | (tr', inr _) => (tr ++ tr', r)
  end.

Definition trace {A} (m : t A) : list Ev := m.1.
Definition outcome {A} (m : t A) : Err + A := m.2.
End Eff.
End Eff.

(** The computations are used through stdpp's monad notations
    [x ← m; k] and [m ;; k]. *)
#[global] Instance eff_ret {Ev Err} : MRet (@Eff.t Ev Err) := @Eff.ret Ev Err.
#[global] Instance eff_bind {Ev Err} : MBind (@Eff.t Ev Err) :=
  λ A B k m, Eff.bind m k.

(** JavaScript truthiness of an optional string: [undefined] and the empty
    string are falsy. *)
Definition truthy (s : option string) : bool :=
  match s with
  | Some s => negb (String.eqb s "")
  | None => false
  end.

(** ** The dependencies upload command ([upload.ts]) *)

Module Upload.

(** An error as the upload code inspects it: [error.message] and, for an
    axios error, [error.response.status]. *)
Record Error := mkError { message : string; response : option Z }.

#[global] Instance Error_eq_dec : EqDecision Error.
Proof. solve_decision. Defined.

Record Payload := mkPayload {
  payload_dependenciesFilePath : string;
  payload_service : string;
  payload_source : string;
  payload_version : option string;
}.

(** The messages of [./renderer], kept symbolic. *)
Inductive Render :=
| renderMissingParameter (parameter : string)
| renderUnsupportedParameterValue (parameter value : string)
| renderMissingEnvironmentVariable (variable : string)
| renderMissingReleaseVersionParameter
| renderCannotFindFile (path : string)
| renderCommandInfo (path source service : string) (version : option string) (dryRun : bool)
| renderDryRunUpload
| renderUpload
| renderRetriedUpload (errorMessage : string) (attempt : nat)
| renderSuccessfulCommand
| renderFailedUpload (errorMessage : string)
| renderFailedUploadBecauseOf403 (errorMessage : string)
| errorLine (errorMessage : string)
| warnLine (errorMessage : string).

Inductive Event :=
| Stdout (r : Render)
| Stderr (r : Render)
| ApiUploadDependencies (attempt : nat) (p : Payload)
| MetricIncrement (name : string)
| MetricGauge (name : string)
| MetricsFlush.

Abbreviation M := (@Eff.t Event Error).

Definition errorCodesNoRetry : list Z := [400; 403; 413].

Definition SUPPORTED_SOURCES : list string := ["snyk"%string].
Definition INVALID_INPUT_EXIT_CODE : Z := 1.
Definition MISSING_FILE_EXIT_CODE : Z := 2.
Definition UPLOAD_ERROR_EXIT_CODE : Z := 3.

(** The fields of [UploadCommand]. *)
Record Command := mkCommand {
  apiKey : option string;
  appKey : option string;
  dependenciesFilePath : string;
  dryRun : bool;
  releaseVersion : option string;
  service : option string;
  source : option string;
}.

(** What the environment answers during one run. *)
Record World := mkWorld {
  (** [fs.existsSync] of the resolved path *)
  existsSync : bool;
  (** outcome of the n-th call of [api.uploadDependencies], n = 1, 2, ... *)
  uploadDependenciesApi : nat → Error + unit;
  (** outcome of [metricsLogger.flush()] *)
  flush : Error + unit;
}.

(** *** async-retry

    [retry(fn, {retries, onRetry})] runs [fn(bail, 1)]; when an attempt
    throws and a retry is left it calls [onRetry(err, num)] and runs the
    next attempt, otherwise it rejects with the operation's main error;
    [bail(err)] rejects at once.  The retry operation holds one timeout
    per retry, so [retries] bounds the re-runs, not the runs. *)

Inductive Attempt := Resolved | Bailed (e : Error).

(** node-retry's [mainError]: the error whose message occurred most often,
    the later one on a tie. *)
Fixpoint mainError_from (errors : list Error) (counts : gmap string nat)
    (main : option Error) (mainCount : nat) : option Error :=
  match errors with
  | [] => main
  | error :: rest =>
      let count := S (default 0%nat (counts !! message error)) in
      let counts := <[message error := count]> counts in
      if (mainCount <=? count)%nat
      then mainError_from rest counts (Some error) count
      else mainError_from rest counts main mainCount
  end.

Definition mainError (errors : list Error) : option Error :=
  mainError_from errors ∅ None 0%nat.

Fixpoint retry_from (fn : nat → M Attempt) (onRetry : Error → nat → M unit)
    (timeouts : nat) (num : nat) (errors : list Error) : M unit :=
  match fn num with
  | (tr, inr Resolved) => (tr, inr tt)
  | (tr, inr (Bailed e)) => (tr, inl e)
  | (tr, inl err) =>
      let errors := errors ++ [err] in
      match timeouts with
      | O => (tr, inl (default err (mainError errors)))
      | S timeouts =>
          let '(tr', r) :=
            (onRetry err num ;; retry_from fn onRetry timeouts (S num) errors) in
          (tr ++ tr', r)
      end
  end.

Definition retry (fn : nat → M Attempt) (onRetry : Error → nat → M unit)
    (retries : nat) : M unit :=
  retry_from fn onRetry retries 1%nat [].

(** *** [UploadCommand.uploadDependencies] *)

Definition retryable (error : Error) : bool :=
  match response error with
  | Some status => negb (bool_decide (status ∈ errorCodesNoRetry))
  | None => false
  end.

(** [error.response && error.response.status === 403] *)
Definition forbidden (error : Error) : bool :=
  match response error with
  | Some status => bool_decide (status = 403)
  | None => false
  end.

Section Run.
Variable (cmd : Command) (w : World).

(** The callback handed to [retry]; [num] only selects the oracle's
    answer. *)
Definition attempt (payload : Payload) (num : nat) : M Attempt :=
  Eff.try_catch
    (if dryRun cmd then
       Eff.emit (Stdout renderDryRunUpload) ;; Eff.ret Resolved
     else
       Eff.emit (Stdout renderUpload) ;;
       Eff.emit (ApiUploadDependencies num payload) ;;
       (([], uploadDependenciesApi w num) : M unit) ;;
       Eff.emit (MetricIncrement "success") ;;
       Eff.ret Resolved)
    (fun error =>
       if retryable error then Eff.throw error
       else Eff.ret (Bailed error)).

Definition onRetry (error : Error) (attempt : nat) : M unit :=
  Eff.emit (MetricIncrement "retries") ;;
  Eff.emit (Stdout (renderRetriedUpload (message error) attempt)).

Definition uploadDependencies (payload : Payload) : M unit :=
  Eff.try_catch
    (retry (attempt payload) onRetry 5)
    (fun error =>
       (if forbidden error
        then Eff.emit (Stdout (renderFailedUploadBecauseOf403 (message error)))
        else Eff.emit (Stdout (renderFailedUpload (message error)))) ;;
       Eff.emit (MetricIncrement "failed") ;;
       Eff.throw error).

(** The payload [execute] builds once the input is validated. *)
Definition payload : Payload :=
  {| payload_dependenciesFilePath := dependenciesFilePath cmd;
     payload_service := default ""%string (service cmd);
     payload_source := default ""%string (source cmd);
     payload_version := releaseVersion cmd |}.

(** *** [UploadCommand.execute]

    The value is the exit code the method returns; [None] is the
    [undefined] of the path that falls off the end. *)
Definition execute : M (option Z) :=
  if negb (truthy (source cmd)) then
    Eff.emit (Stderr (renderMissingParameter "--source")) ;;
    Eff.ret (Some INVALID_INPUT_EXIT_CODE)
  else
  let source_ := default ""%string (source cmd) in
  if negb (bool_decide (source_ ∈ SUPPORTED_SOURCES)) then
    Eff.emit (Stderr (renderUnsupportedParameterValue "--source" source_)) ;;
    Eff.ret (Some INVALID_INPUT_EXIT_CODE)
  else if negb (truthy (service cmd)) then
    Eff.emit (Stderr (renderMissingParameter "--service")) ;;
    Eff.ret (Some INVALID_INPUT_EXIT_CODE)
  else
  let service_ := default ""%string (service cmd) in
  if negb (truthy (appKey cmd)) then
    Eff.emit (Stderr (renderMissingEnvironmentVariable "DATADOG_APP_KEY")) ;;
    Eff.ret (Some INVALID_INPUT_EXIT_CODE)
  else if negb (truthy (apiKey cmd)) then
    Eff.emit (Stderr (renderMissingEnvironmentVariable "DATADOG_API_KEY")) ;;
    Eff.ret (Some INVALID_INPUT_EXIT_CODE)
  else
    (if negb (truthy (releaseVersion cmd))
     then Eff.emit (Stdout renderMissingReleaseVersionParameter)
     else Eff.ret tt) ;;
    if negb (existsSync w) then
      Eff.emit (Stderr (renderCannotFindFile (dependenciesFilePath cmd))) ;;
      Eff.ret (Some MISSING_FILE_EXIT_CODE)
    else
      Eff.emit (Stdout (renderCommandInfo (dependenciesFilePath cmd) source_ service_
                          (releaseVersion cmd) (dryRun cmd))) ;;
      Eff.try_finally
        (Eff.try_catch
           (uploadDependencies payload ;;
            Eff.emit (Stdout renderSuccessfulCommand) ;;
            Eff.emit (MetricGauge "duration") ;;
            Eff.ret None)
           (fun error =>
              Eff.emit (Stderr (errorLine (message error))) ;;
              Eff.ret (Some UPLOAD_ERROR_EXIT_CODE)))
        (Eff.try_catch
           (Eff.emit MetricsFlush ;; (([], flush w) : M unit))
           (fun err => Eff.emit (Stdout (warnLine (message err))))).

(** The input classes of [execute]'s validation. *)
Definition invalidInput : bool :=
  negb (truthy (source cmd))
  || negb (bool_decide (default ""%string (source cmd) ∈ SUPPORTED_SOURCES))
  || negb (truthy (service cmd))
  || negb (truthy (appKey cmd))
  || negb (truthy (apiKey cmd)).

(** The pieces of the trace of [execute] around the upload. *)
Definition preamble : list Event :=
  (if truthy (releaseVersion cmd) then []
   else [Stdout renderMissingReleaseVersionParameter]).

Definition commandInfo : Event :=
  Stdout (renderCommandInfo (dependenciesFilePath cmd)
            (default ""%string (source cmd)) (default ""%string (service cmd))
            (releaseVersion cmd) (dryRun cmd)).

Definition flushed : list Event :=
  MetricsFlush :: match flush w with
                  | inl err => [Stdout (warnLine (message err))]
                  | inr _ => []
                  end.

(** The events an attempt loop starting at attempt [lo] can produce:
    an upload request numbered [j] is preceded by retryable failures of
    the attempts from [lo] on. *)
Definition loopEvent (payload : Payload) (lo : nat) (ev : Event) : Prop :=
  match ev with
  | Stdout renderUpload | Stdout renderDryRunUpload
  | Stdout (renderRetriedUpload _ _) | MetricIncrement _ => True
  | ApiUploadDependencies j q =>
      q = payload ∧ (lo ≤ j)%nat ∧
      ∀ i, (lo ≤ i < j)%nat → ∃ e, uploadDependenciesApi w i = inl e ∧ retryable e = true
  | _ => False
  end.

End Run.

(** The upload requests of a trace. *)
Definition isUpload (ev : Event) : bool :=
  match ev with ApiUploadDependencies _ _ => true | _ => false end.
Definition uploads (tr : list Event) : list Event := List.filter isUpload tr.

(** Counting the events of a kind in a trace. *)
Definition count (p : Event → bool) (tr : list Event) : nat := length (List.filter p tr).

Definition isFlush (ev : Event) : bool :=
  match ev with MetricsFlush => true | _ => false end.
Definition isIncrement (metric : string) (ev : Event) : bool :=
  match ev with MetricIncrement name => String.eqb name metric | _ => false end.
Definition isOutput (ev : Event) : bool :=
  match ev with Stdout _ | Stderr _ => true | _ => false end.

End Upload.

(** ** The synthetics interfaces ([interfaces.ts]) *)

Module Interfaces.

Inductive ExecutionRule := BLOCKING | NON_BLOCKING | SKIPPED.

#[global] Instance ExecutionRule_eq_dec : EqDecision ExecutionRule.
Proof. solve_decision. Defined.

(** A JSON value; a [ConfigOverride] is a JavaScript object read from a
    suite file or the configuration file, that is a finite map from keys
    to such values. *)
#[warnings="-register-all"]
Inductive JValue :=
| JNull
| JBool (b : bool)
| JNum (n : Z)
| JStr (s : string)
| JArr (l : list JValue)
| JObj (o : gmap string JValue).

Abbreviation ConfigOverride := (gmap string JValue).

Record TriggerConfig := mkTriggerConfig {
  suite : string;
  config : ConfigOverride;
  id : string;
}.

Record CiOptions := mkCiOptions { executionRule : ExecutionRule }.

(** [Test]: the fields the command reads, [public_id] and
    [options.ci?.executionRule]. *)
Record Test := mkTest {
  public_id : string;
  name : string;
  options_ci : option CiOptions;
}.

Record TriggerResult := mkTriggerResult {
  device : string;
  location : Z;
  tr_public_id : string;
  result_id : string;
}.

Record Location := mkLocation { location_id : Z; display_name : string }.
Abbreviation LocationsMapping := (gmap Z string).

(** [Trigger]; [results] may be absent in the answer. *)
Record Trigger := mkTrigger {
  locations : list Location;
  results : option (list TriggerResult);
}.

Record Result := mkResult {
  device_id : string;
  error : option string;
  errorCode : option string;
  eventType : string;
  passed : bool;
}.

Record PollResult := mkPollResult {
  dc_id : Z;
  result : Result;
  resultID : string;
}.

Record Summary := mkSummary {
  summary_failed : Z;
  summary_passed : Z;
  summary_skipped : Z;
}.

Record TunnelInfo := mkTunnelInfo { host : string; tunnel_id : string; privateKey : string }.

(** An element of [overriddenTestsToTrigger]. *)
Record TestPayload := mkTestPayload {
  payload_public_id : string;
  payload_config : ConfigOverride;
  tunnel : option TunnelInfo;
}.

(** A suite file: [content.tests] may be missing, a test's [config] may be
    missing. *)
Record SuiteTest := mkSuiteTest { test_config : option ConfigOverride; test_id : string }.
Record Suite := mkSuite { suite_name : string; content_tests : option (list SuiteTest) }.

Record Error := mkError { message : string }.

End Interfaces.

(** ** The synthetics run-tests command ([run-test.ts]) *)

Module RunTest.
Import Interfaces.

Inductive Event :=
| Log (msg : string)                                   (* reporter.log *)
| ReporterError (msg : string) (e : option Error)      (* reporter.error *)
| ApiSearchTests (query : string)
| GetSuites (glob : string)
| GetTestsToTrigger (testsToTrigger : list TriggerConfig)
| ApiGetPresignedURL (publicIds : list string)
| TunnelStart (presignedURL : string) (publicIds : list string)
| TunnelStop
| RunTests (testsToTrigger : list TestPayload)
| WaitForResults (triggerResults : list TriggerResult) (pollingTimeout : Z)
| ReportStart
| TestEnd (test : Test) (testResults : option (list PollResult))
          (locationNames : LocationsMapping)
| RunEnd (summary : Summary).

Abbreviation M := (@Eff.t Event Error).

Record ProxyConfiguration := mkProxy { protocol : string }.

(** [RunTestCommand.config] *)
Record Config := mkConfig {
  cfg_apiKey : option string;
  cfg_appKey : option string;
  datadogSite : string;
  files : string;
  global : ConfigOverride;
  pollingTimeout : Z;
  proxy : ProxyConfiguration;
  subdomain : string;
  cfg_tunnel : bool;
}.

(** The fields of [RunTestCommand] set from the command line. *)
Record Command := mkCommand {
  apiKey : option string;
  appKey : option string;
  configPath : option string;
  fileGlobs : option (list string);
  jUnitReport : option string;
  publicIds : list string;
  runName : option string;
  shouldOpenTunnel : option bool;
  testSearchQuery : option string;
}.

(** The tunnel object: what [new Tunnel(...)] stores. *)
Record Tunnel := mkTunnel { tunnel_url : string; tunnel_publicIds : list string }.

(** What the collaborators answer during one run. *)
Record World := mkWorld {
  (** [parseConfigFile(this.config, this.configPath)] *)
  parseConfigFile : Error + Config;
  (** [api.searchTests(query)], as the public ids of the tests found *)
  searchTests : string → Error + list string;
  (** [getSuites(glob, reporter)] *)
  getSuites : string → Error + list Suite;
  (** [getTestsToTrigger(api, testsToTrigger, reporter)] *)
  getTestsToTrigger : list TriggerConfig → Error + (list Test * list TestPayload * Summary);
  (** [api.getPresignedURL(publicIds)] *)
  getPresignedURL : list string → Error + string;
  (** [tunnel.start()] *)
  tunnelStart : Tunnel → Error + TunnelInfo;
  (** [runTests(api, overriddenTestsToTrigger)] *)
  runTests : list TestPayload → Error + Trigger;
  (** [waitForResults(api, triggers.results, pollingTimeout, testsToTrigger, tunnel)] *)
  waitForResults : list TriggerResult → Z → list TriggerConfig → option Tunnel →
                   Error + gmap string (list PollResult);
  (** [reporter.testEnd(...)], which may throw *)
  testEnd : Test → Error + unit;
}.

(** A collaborator call: the event, then the oracle's answer. *)
Definition call {A} (ev : Event) (answer : Error + A) : M A := ([ev], answer).

(** [{...a, ...b}]: the own keys of [a], then those of [b] over them;
    spreading [undefined] adds nothing. *)
Definition spread (a : ConfigOverride) (b : option ConfigOverride) : ConfigOverride :=
  match b with
  | Some b => b ∪ a
  | None => a
  end.

(** [Array.prototype.sort(compare)]: a stable sort, here by insertion. *)
Section Sort.
Context {A : Type} (compare : A → A → Z).

Fixpoint insert_sorted (x : A) (l : list A) : list A :=
  match l with
  | [] => [x]
  | y :: l' => if compare x y <=? 0 then x :: y :: l' else y :: insert_sorted x l'
  end.

Definition sort (l : list A) : list A := foldr insert_sorted [] l.
End Sort.

(** [mapM]-style sequencing of the calls of [Promise.all]. *)
Fixpoint forM {A B} (f : A → M B) (l : list A) : M (list B) :=
  match l with
  | [] => mret []
  | x :: l' => y ← f x; ys ← forM f l'; mret (y :: ys)
  end.

Definition tunnelNotice : Event :=
  Log "You are using tunnel option, the chosen location(s) will be overridden by a location in your account region.".

(** [testToTrigger.tunnel = tunnelInfo] *)
Definition withTunnel (tunnelInfo : TunnelInfo) (testToTrigger : TestPayload) : TestPayload :=
  {| payload_public_id := payload_public_id testToTrigger;
     payload_config := payload_config testToTrigger;
     tunnel := Some tunnelInfo |}.

(** [triggers.locations.reduce(...)] *)
Definition locationNamesOf (triggers : Trigger) : LocationsMapping :=
  foldl (fun (mapping : LocationsMapping) location =>
           <[location_id location := display_name location]> mapping)
        ∅ (locations triggers).

Section Command.
(** [hasTestSucceeded] of [./utils]: any function from the results of a
    test ([undefined] when [results] has no entry for it) to a boolean. *)
Variable hasTestSucceeded : option (list PollResult) → bool.
Variable (cmd : Command) (w : World).

Definition isNonBlocking (t : Test) : bool :=
  match options_ci t with
  | Some ci => bool_decide (executionRule ci = NON_BLOCKING)
  | None => false
  end.

(** [sortTestsByOutcome(results)] *)
Definition sortTestsByOutcome (results : gmap string (list PollResult)) (t1 t2 : Test) : Z :=
  let success1 := hasTestSucceeded (results !! public_id t1) in
  let success2 := hasTestSucceeded (results !! public_id t2) in
  let isNonBlockingTest1 := isNonBlocking t1 in
  let isNonBlockingTest2 := isNonBlocking t2 in
  if Bool.eqb success1 success2 then
    if Bool.eqb isNonBlockingTest1 isNonBlockingTest2 then 0
    else if isNonBlockingTest1 then -1 else 1
  else if success1 then -1 else 1.

(** [getApiHelper()]: the keys of the command line over those of the
    configuration; throws when one is missing. *)
Definition getApiHelper (config : Config) : M Config :=
  let apiKey_ := if truthy (apiKey cmd) then apiKey cmd else cfg_apiKey config in
  let appKey_ := if truthy (appKey cmd) then appKey cmd else cfg_appKey config in
  let config :=
    {| cfg_apiKey := apiKey_; cfg_appKey := appKey_; datadogSite := datadogSite config;
       files := files config; global := global config;
       pollingTimeout := pollingTimeout config; proxy := proxy config;
       subdomain := subdomain config; cfg_tunnel := cfg_tunnel config |} in
  if negb (truthy appKey_) || negb (truthy apiKey_) then
    (if negb (truthy appKey_)
     then Eff.emit (ReporterError "Missing DATADOG_APP_KEY in your environment." None)
     else mret tt) ;;
    (if negb (truthy apiKey_)
     then Eff.emit (ReporterError "Missing DATADOG_API_KEY in your environment." None)
     else mret tt) ;;
    Eff.throw (mkError "API and/or Application keys are missing")
  else mret config.

(** [getTestsList(api)] *)
Definition getTestsList (config : Config) : M (list TriggerConfig) :=
  if truthy (testSearchQuery cmd) then
    let query := default ""%string (testSearchQuery cmd) in
    testSearchResults ← call (ApiSearchTests query) (searchTests w query);
    mret (map (fun test_public_id =>
                 {| config := global config; id := test_public_id;
                    suite := "Query: " +:+ query |})
              testSearchResults)
  else
    let listOfGlobs := default [files config] (fileGlobs cmd) in
    found ← forM (fun glob => call (GetSuites glob) (getSuites w glob)) listOfGlobs;
    let suites :=
      filter (fun suite => is_Some (content_tests suite))
             (foldl (fun acc val => acc ++ val) [] found) in
    let testsToTrigger :=
      foldl (fun acc suiteTests => acc ++ suiteTests) []
        (map (fun suite =>
                map (fun test =>
                       {| suite := suite_name suite;
                          config := spread (global config) (test_config test);
                          id := test_id test |})
                    (default [] (content_tests suite)))
             suites) in
    mret testsToTrigger.

(** The [for (const test of tests)] loop of [execute]. *)
Fixpoint reportTests (results : gmap string (list PollResult))
    (locationNames : LocationsMapping) (tests : list Test)
    (summary : Summary) (hasSucceeded : bool) : M (Summary * bool) :=
  match tests with
  | [] => mret (summary, hasSucceeded)
  | test :: rest =>
      let testResults := results !! public_id test in
      let passed := hasTestSucceeded testResults in
      let summary :=
        if passed then
          {| summary_failed := summary_failed summary;
             summary_passed := summary_passed summary + 1;
             summary_skipped := summary_skipped summary |}
        else
          {| summary_failed := summary_failed summary + 1;
             summary_passed := summary_passed summary;
             summary_skipped := summary_skipped summary |} in
      let hasSucceeded :=
        if passed then hasSucceeded
        else if negb (isNonBlocking test) then false else hasSucceeded in
      call (TestEnd test testResults locationNames) (testEnd w test) ;;
      reportTests results locationNames rest summary hasSucceeded
  end.

(** [(this.shouldOpenTunnel === undefined && this.config.tunnel) ||
    this.shouldOpenTunnel] *)
Definition tunnelRequested (config : Config) : bool :=
  match shouldOpenTunnel cmd with
  | None => cfg_tunnel config
  | Some b => b
  end.

(** The tunnel block of [execute]: [inl code] is its [return code]. *)
Definition openTunnel (config : Config) (publicIdsToTrigger : list string)
    (overriddenTestsToTrigger : list TestPayload)
    : M (Z + (option Tunnel * list TestPayload)) :=
  if tunnelRequested config then
    Eff.emit tunnelNotice ;;
    presignedURL ← call (ApiGetPresignedURL publicIdsToTrigger)
                        (getPresignedURL w publicIdsToTrigger);
    let tunnel_ := mkTunnel presignedURL publicIdsToTrigger in
    Eff.try_catch
      (tunnelInfo ← call (TunnelStart presignedURL publicIdsToTrigger)
                         (tunnelStart w tunnel_);
       mret (inr (Some tunnel_,
                  map (withTunnel tunnelInfo) overriddenTestsToTrigger)))
      (fun e =>
         Eff.emit (ReporterError " ERROR on tunnel start " (Some e)) ;;
         mret (inl 1))
  else mret (inr (None, overriddenTestsToTrigger)).

(** The [try { ... } catch { ... } finally { ... }] of [execute]. *)
Definition pollAndReport (config : Config) (testsToTrigger : list TriggerConfig)
    (tests : list Test) (summary : Summary) (triggers : Trigger)
    (triggerResults : list TriggerResult) (tunnel_ : option Tunnel) : M Z :=
  Eff.try_finally
    (Eff.try_catch
       (results ← call (WaitForResults triggerResults (pollingTimeout config))
                       (waitForResults w triggerResults (pollingTimeout config)
                                       testsToTrigger tunnel_);
        let tests := sort (sortTestsByOutcome results) tests in
        Eff.emit ReportStart ;;
        let locationNames := locationNamesOf triggers in
        '(summary, hasSucceeded) ← reportTests results locationNames tests summary true;
        Eff.emit (RunEnd summary) ;;
        if hasSucceeded : bool then mret 0 else mret 1)
       (fun error =>
          Eff.emit (ReporterError " ERROR " (Some error)) ;;
          mret 1))
    (match tunnel_ with
     | Some _ => Eff.emit TunnelStop
     | None => mret tt
     end).

(** The verdict of one test, and the tally of a list of tests. *)
Definition success (results : gmap string (list PollResult)) (t : Test) : bool :=
  hasTestSucceeded (results !! public_id t).

Definition blockingFailure (results : gmap string (list PollResult)) (t : Test) : bool :=
  negb (success results t) && negb (isNonBlocking t).

Definition failures (results : gmap string (list PollResult)) (tests : list Test) : Z :=
  Z.of_nat (length (List.filter (fun t => negb (success results t)) tests)).

(** [RunTestCommand.execute], in its two parts: the selection of the
    tests to trigger, up to the first [return], and the rest. *)
Definition selectTests : M (Config * list TriggerConfig) :=
  config ← (([], parseConfigFile w) : M Config);
  config ← getApiHelper config;
  let publicIdsFromCli :=
    map (fun id_ => {| suite := "CLI Suite"; config := global config; id := id_ |})
        (publicIds cmd) in
  testsToTrigger ← (match publicIdsFromCli with
                    | [] => getTestsList config
                    | _ :: _ => mret publicIdsFromCli
                    end);
  mret (config, testsToTrigger).

Definition runSelected (config : Config) (testsToTrigger : list TriggerConfig) : M Z :=
  match testsToTrigger with
  | [] => Eff.emit (Log "No test suites to run.") ;; mret 0
  | _ :: _ =>
      '(tests, overriddenTestsToTrigger, summary) ←
        call (GetTestsToTrigger testsToTrigger) (getTestsToTrigger w testsToTrigger);
      let publicIdsToTrigger := map public_id tests in
      opened ← openTunnel config publicIdsToTrigger overriddenTestsToTrigger;
      match opened with
      | inl code => mret code
      | inr (tunnel_, overriddenTestsToTrigger) =>
          triggers ← call (RunTests overriddenTestsToTrigger)
                          (runTests w overriddenTestsToTrigger);
          match tests with
          | [] => Eff.emit (Log "No test to run.") ;; mret 0
          | _ :: _ =>
              match results triggers with
              | None => Eff.throw (mkError "No result to poll.")
              | Some triggerResults =>
                  pollAndReport config testsToTrigger tests summary triggers
                                triggerResults tunnel_
              end
          end
      end
  end.

Definition execute : M Z :=
  '(config, testsToTrigger) ← selectTests;
  runSelected config testsToTrigger.
End Command.

(** The process exit status of a run: the code [execute] returns, and 1
    when [execute] throws (the command-line runner, clipanion's
    [Cli.run], catches the error, prints it and answers 1). *)
Definition exitStatus (o : Error + Z) : Z :=
  match o with
  | inr code => code
  | inl _ => 1
  end.

(** What the [finally] of the polling block adds to the trace. *)
Definition stopEvents (tunnel_ : option Tunnel) : list Event :=
  match tunnel_ with
  | Some _ => [TunnelStop]
  | None => []
  end.

Definition isTestEnd (ev : Event) : bool :=
  match ev with TestEnd _ _ _ => true | _ => false end.
Definition isTunnelStart (ev : Event) : bool :=
  match ev with TunnelStart _ _ => true | _ => false end.
Definition isTunnelStop (ev : Event) : bool :=
  match ev with TunnelStop => true | _ => false end.
Definition isRunTests (ev : Event) : bool :=
  match ev with RunTests _ => true | _ => false end.
Definition count (p : Event → bool) (tr : list Event) : nat := length (List.filter p tr).

Definition isReporterError (ev : Event) : bool :=
  match ev with ReporterError _ _ => true | _ => false end.
Definition isDiscovery (ev : Event) : bool :=
  match ev with ApiSearchTests _ | GetSuites _ => true | _ => false end.

(** [getAppBaseURL()] *)
Definition getAppBaseURL (config : Config) : string :=
  "https://" +:+ subdomain config +:+ "." +:+ datadogSite config +:+ "/".

(** [getDatadogHost(useIntake)]; [hostOverride] is
    [process.env.DD_API_HOST_OVERRIDE]. *)
Definition getDatadogHost (hostOverride : option string) (config : Config)
    (useIntake : bool) : string :=
  let apiPath := "api/v1"%string in
  let host := "https://api." +:+ datadogSite config in
  let host :=
    if truthy hostOverride then default ""%string hostOverride
    else if useIntake && (String.eqb (datadogSite config) "datadoghq.com"
                          || String.eqb (datadogSite config) "datad0g.com")
    then "https://intake.synthetics." +:+ datadogSite config
    else host in
  host +:+ "/" +:+ apiPath.

(** The argument [getApiHelper] hands to [apiConstructor]. *)
Record ApiArgs := mkApiArgs {
  args_apiKey : option string;
  args_appKey : option string;
  baseIntakeUrl : string;
  baseUrl : string;
  proxyOpts : ProxyConfiguration;
}.

Definition apiConstructorArgs (hostOverride : option string) (config : Config) : ApiArgs :=
  {| args_apiKey := cfg_apiKey config;
     args_appKey := cfg_appKey config;
     baseIntakeUrl := getDatadogHost hostOverride config true;
     baseUrl := getDatadogHost hostOverride config false;
     proxyOpts := proxy config |}.

Definition sameLocation (i : Z) (l : Location) : bool := (location_id l =? i)%Z.

(** The tests to trigger of one suite file. *)
Definition suiteTests (config : Config) (s : Suite) : list TriggerConfig :=
  map (fun test => {| suite := suite_name s;
                      config := spread (global config) (test_config test);
                      id := test_id test |})
      (default [] (content_tests s)).

(** An application or API key is missing from both the command line and
    the configuration. *)
Definition keysMissing (cmd : Command) (config : Config) : bool :=
  negb (truthy (if truthy (appKey cmd) then appKey cmd else cfg_appKey config))
  || negb (truthy (if truthy (apiKey cmd) then apiKey cmd else cfg_apiKey config)).

(** The [reporter.testEnd] call of the loop for the test [t]. *)
Definition testEndOf (results : gmap string (list PollResult))
    (locationNames : LocationsMapping) (t : Test) : Event :=
  TestEnd t (results !! public_id t) locationNames.

(** The events of the three parts of [execute]. *)
Definition isSelectEvent (ev : Event) : bool := isReporterError ev || isDiscovery ev.
Definition isTunnelEvent (ev : Event) : bool :=
  match ev with
  | Log _ | ApiGetPresignedURL _ | TunnelStart _ _ | ReporterError _ _ => true
  | _ => false
  end.
Definition isPollEvent (ev : Event) : bool :=
  match ev with
  | WaitForResults _ _ | ReportStart | TestEnd _ _ _ | RunEnd _
  | ReporterError _ _ | TunnelStop => true
  | _ => false
  end.

(** The place of a test in the report: passing tests first, failing
    ones after, non-blocking before the others in each group. *)
Definition rank (hasTestSucceeded : option (list PollResult) → bool)
    (results : gmap string (list PollResult)) (t : Test) : nat :=
  ((if success hasTestSucceeded results t then 0 else 2)
   + (if isNonBlocking t then 0 else 1))%nat.

Definition ranked (hasTestSucceeded : option (list PollResult) → bool)
    (results : gmap string (list PollResult)) (k : nat) (tests : list Test) : list Test :=
  List.filter (fun t => (rank hasTestSucceeded results t =? k)%nat) tests.

Definition passes (hasTestSucceeded : option (list PollResult) → bool)
    (results : gmap string (list PollResult)) (tests : list Test) : Z :=
  Z.of_nat (length (List.filter (success hasTestSucceeded results) tests)).

(** The [summary] after the loop over [tests]. *)
Definition tally (hasTestSucceeded : option (list PollResult) → bool)
    (results : gmap string (list PollResult)) (tests : list Test)
    (summary : Summary) : Summary :=
  {| summary_failed := summary_failed summary + failures hasTestSucceeded results tests;
     summary_passed := summary_passed summary + passes hasTestSucceeded results tests;
     summary_skipped := summary_skipped summary |}.

End RunTest.

(** ** The helpers of [./utils] the command relies on

    [utils.ts] is not among the sources; the two helpers below follow the
    specification's contracts (sections 4.1 and 4.3). *)

Module Utils.
Import Interfaces.

Inductive CallerError := EmptyResultSet.

Definition allPassed (results : list PollResult) : bool :=
  forallb (fun pollResult => passed (result pollResult)) results.

(** Modelled from the spec: [hasTestSucceeded] of [./utils] is missing.
    "A test succeeds iff all of its [PollResult.result.passed] are true;
    empty result set is not a success state and must be treated as a
    caller error, not silently true." *)
Definition hasTestSucceeded (results : list PollResult) : CallerError + bool :=
  match results with
  | [] => inl EmptyResultSet
  | _ :: _ => inr (allPassed results)
  end.

(** The poller's state: the trigger results still outstanding and the
    results resolved so far, keyed by [public_id]. *)
Record PollerState := mkPollerState {
  outstanding : list TriggerResult;
  resolved : gmap string (list PollResult);
}.

Inductive PollerStatus := COMPLETE | TIMEOUT.

Definition isFinished (r : PollResult) : bool :=
  String.eqb (eventType (result r)) "finished".

Definition appendResult (m : gmap string (list PollResult)) (publicId : string)
    (r : PollResult) : gmap string (list PollResult) :=
  <[publicId := default [] (m !! publicId) ++ [r]]> m.

(** Appending, for each of the instances [l], the result [f] gives it. *)
Definition appendAll (f : TriggerResult → PollResult)
    (m : gmap string (list PollResult)) (l : list TriggerResult)
    : gmap string (list PollResult) :=
  foldl (fun m tr => appendResult m (tr_public_id tr) (f tr)) m l.

(** One returned [PollResult]: when it is finished, its id leaves the
    outstanding set and it is appended under its owning test. *)
Definition resolveOne (st : PollerState) (r : PollResult) : PollerState :=
  if isFinished r then
    {| outstanding := filter (fun tr => result_id tr ≠ resultID r) (outstanding st);
       resolved :=
         appendAll (fun _ => r) (resolved st)
                   (filter (fun tr => result_id tr = resultID r) (outstanding st)) |}
  else st.

(** One tick: a failed poll call changes nothing. *)
Definition tick (answer : Error + list PollResult) (st : PollerState) : PollerState :=
  match answer with
  | inl _ => st
  | inr returned => foldl resolveOne st returned
  end.

(** The synthetic result of an instance still outstanding at the deadline. *)
Definition timedOutResult (tr : TriggerResult) : PollResult :=
  {| dc_id := location tr;
     resultID := result_id tr;
     result := {| device_id := device tr; error := Some "Timeout"%string;
                  errorCode := None; eventType := "finished"; passed := false |} |}.

Section Poller.
(** [api.pollResults(outstandingIds)] at the n-th tick, and the fixed
    poll interval. *)
Variable pollResults : nat → list string → Error + list PollResult.
Variable pollInterval : Z.

(** The n-th poll happens [n * pollInterval] after the start, so
    [ticksLeft] polls fit before the deadline. *)
Fixpoint pollLoop (ticksLeft : nat) (n : nat) (st : PollerState)
    : PollerStatus * PollerState :=
  match outstanding st with
  | [] => (COMPLETE, st)
  | _ :: _ =>
      match ticksLeft with
      | O => (TIMEOUT, st)
      | S ticksLeft =>
          pollLoop ticksLeft (S n)
                   (tick (pollResults n (map result_id (outstanding st))) st)
      end
  end.

Definition poll (triggerResults : list TriggerResult) (timeoutMs : Z)
    : PollerStatus * PollerState :=
  pollLoop (Z.to_nat (timeoutMs / pollInterval)) 1
           {| outstanding := triggerResults; resolved := ∅ |}.

(** Modelled from the spec: [waitForResults] of [./utils] is missing.
    "Maintain the set of outstanding result ids seeded from all
    trigger results; on a fixed interval issue one [pollResults] call;
    every returned result that is finished moves from outstanding to
    resolved, keyed by its owning test's [public_id]; continue until
    outstanding is empty or the elapsed time exceeds [timeoutMs]; on
    timeout the outstanding instances are reported as failed with a
    synthetic timed-out result." *)
Definition waitForResults (triggerResults : list TriggerResult) (timeoutMs : Z)
    : gmap string (list PollResult) :=
  let st := (poll triggerResults timeoutMs).2 in
  appendAll timedOutResult (resolved st) (outstanding st).
End Poller.

(** The public ids of a list of instances, and the public ids a poller
    state accounts for. *)
Definition publicIds (l : list TriggerResult) : gset string :=
  list_to_set (tr_public_id <$> l).

Definition covered (st : PollerState) : gset string :=
  dom (resolved st) ∪ publicIds (outstanding st).

End Utils.

(** * Examples

    Concrete commands and answers of the environment, used to run the
    models. *)

Module UploadExamples.
Import Upload.

(** A valid command and three answers of the environment. *)
Definition cmd_ok : Command :=
  {| apiKey := Some "api"%string; appKey := Some "app"%string;
     dependenciesFilePath := "snyk_deps.json"; dryRun := false;
     releaseVersion := Some "1.234"%string; service := Some "my-service"%string;
     source := Some "snyk"%string |}.

Definition cmd_dry : Command :=
  {| apiKey := Some "api"%string; appKey := Some "app"%string;
     dependenciesFilePath := "snyk_deps.json"; dryRun := true;
     releaseVersion := Some "1.234"%string; service := Some "my-service"%string;
     source := Some "snyk"%string |}.

Definition cmd_no_service : Command :=
  {| apiKey := Some "api"%string; appKey := Some "app"%string;
     dependenciesFilePath := "snyk_deps.json"; dryRun := false;
     releaseVersion := None; service := None; source := Some "snyk"%string |}.

(** The server answers 500 to every request. *)
Definition w_500 : World :=
  {| existsSync := true;
     uploadDependenciesApi := fun _ => inl (mkError "Internal Server Error" (Some 500));
     flush := inr tt |}.

(** The server answers 500 to the first request and 403 to the others. *)
Definition w_403 : World :=
  {| existsSync := true;
     uploadDependenciesApi := fun n =>
       if (n =? 1)%nat then inl (mkError "Internal Server Error" (Some 500))
       else inl (mkError "Forbidden" (Some 403));
     flush := inr tt |}.

Definition w_no_file : World :=
  {| existsSync := false;
     uploadDependenciesApi := fun _ => inr tt;
     flush := inr tt |}.

(** The server answers 502 twice, then accepts; the metrics flush fails. *)
Definition w_third_time : World :=
  {| existsSync := true;
     uploadDependenciesApi := fun n =>
       if (n <? 3)%nat then inl (mkError "Bad Gateway" (Some 502)) else inr tt;
     flush := inl (mkError "flush timed out" None) |}.

(** The connection is refused at the second request (no HTTP response). *)
Definition w_refused : World :=
  {| existsSync := true;
     uploadDependenciesApi := fun n =>
       if (n =? 1)%nat then inl (mkError "Internal Server Error" (Some 500))
       else inl (mkError "connect ECONNREFUSED" None);
     flush := inr tt |}.

End UploadExamples.

Module RunTestExamples.
Import Interfaces RunTest.

(** A [hasTestSucceeded] following the helper of [Utils]. *)
Definition hasTestSucceeded_ex (results : option (list PollResult)) : bool :=
  match results with
  | Some results =>
      match Utils.hasTestSucceeded results with
      | inr b => b
      | inl _ => false
      end
  | None => false
  end.

Definition pollResult_ex (resultID_ : string) (passed_ : bool) : PollResult :=
  {| dc_id := 1; resultID := resultID_;
     result := {| device_id := "chrome.laptop_large"; error := None; errorCode := None;
                  eventType := "finished"; passed := passed_ |} |}.

Definition test_A : Test :=
  {| public_id := "aaa-aaa-aaa"; name := "A";
     options_ci := Some (mkCiOptions BLOCKING) |}.
Definition test_B : Test :=
  {| public_id := "bbb-bbb-bbb"; name := "B"; options_ci := None |}.
Definition test_C : Test :=
  {| public_id := "ccc-ccc-ccc"; name := "C";
     options_ci := Some (mkCiOptions NON_BLOCKING) |}.

Definition results_ex : gmap string (list PollResult) :=
  <["aaa-aaa-aaa"%string := [pollResult_ex "1" false] ]>
    (<["bbb-bbb-bbb"%string := [pollResult_ex "2" true] ]>
       (<["ccc-ccc-ccc"%string := [pollResult_ex "3" false] ]> ∅)).

Definition headers_a : JValue := JObj {[ "a"%string := JNum 1 ]}.
Definition headers_b : JValue := JObj {[ "b"%string := JNum 2 ]}.
Definition headers_ab : JValue := JObj (<["a"%string := JNum 1]> {[ "b"%string := JNum 2 ]}).

Definition config_ex : Config :=
  {| cfg_apiKey := Some "api"%string; cfg_appKey := Some "app"%string;
     datadogSite := "datadoghq.com"; files := "{,!(node_modules)/**/}*.synthetics.json";
     global := {[ "headers"%string := headers_a ]};
     pollingTimeout := 120000; proxy := mkProxy "http"; subdomain := "app";
     cfg_tunnel := false |}.

Definition suite_ex : Suite :=
  {| suite_name := "search-panel.synthetics.json";
     content_tests :=
       Some [ {| test_config := Some {[ "headers"%string := headers_b ]};
                 test_id := "aaa-aaa-aaa" |} ] |}.

Definition cmd_ex : Command :=
  {| apiKey := None; appKey := None; configPath := None; fileGlobs := None;
     jUnitReport := None; publicIds := []; runName := None;
     shouldOpenTunnel := None; testSearchQuery := None |}.

Definition cmd_tunnel : Command :=
  {| apiKey := None; appKey := None; configPath := None; fileGlobs := None;
     jUnitReport := None; publicIds := ["aaa-aaa-aaa"%string]; runName := None;
     shouldOpenTunnel := Some true; testSearchQuery := None |}.

Definition summary_0 : Summary :=
  {| summary_failed := 0; summary_passed := 0; summary_skipped := 0 |}.

Definition payload_ex (publicId : string) : TestPayload :=
  {| payload_public_id := publicId; payload_config := ∅; tunnel := None |}.

Definition triggerResult_ex (publicId resultId : string) : TriggerResult :=
  {| device := "chrome.laptop_large"; location := 1;
     tr_public_id := publicId; result_id := resultId |}.

Definition triggers_ex : Trigger :=
  {| locations := [mkLocation 1 "Frankfurt (AWS)"];
     results := Some [triggerResult_ex "aaa-aaa-aaa" "1";
                      triggerResult_ex "bbb-bbb-bbb" "2";
                      triggerResult_ex "ccc-ccc-ccc" "3"] |}.

Definition tests_ex : list Test := [test_A; test_B; test_C].
Definition payloads_ex : list TestPayload :=
  [payload_ex "aaa-aaa-aaa"; payload_ex "bbb-bbb-bbb"; payload_ex "ccc-ccc-ccc"].

(** A run is described by what discovery finds, what [getTestsToTrigger]
    keeps, and how [tunnel.start] and [runTests] answer; polling and
    reporting succeed. *)
Definition world (suites : list Suite)
    (fetched : list Test * list TestPayload * Summary)
    (started : Error + TunnelInfo) (triggered : Error + Trigger) : World :=
  {| parseConfigFile := inr config_ex;
     searchTests := fun _ => inr [];
     getSuites := fun _ => inr suites;
     getTestsToTrigger := fun _ => inr fetched;
     getPresignedURL := fun _ => inr "wss://tunnel"%string;
     tunnelStart := fun _ => started;
     runTests := fun _ => triggered;
     waitForResults := fun _ _ _ _ => inr results_ex;
     testEnd := fun _ => inr tt |}.

Definition tunnelInfo_ex : TunnelInfo := mkTunnelInfo "host" "id" "key".

(** Three tests, triggered and polled without error. *)
Definition w_ex : World :=
  world [suite_ex] (tests_ex, payloads_ex, summary_0) (inr tunnelInfo_ex) (inr triggers_ex).

(** Discovery finds no suite. *)
Definition w_none : World :=
  world [] ([], [], summary_0) (inr tunnelInfo_ex) (inr triggers_ex).

(** The one selected test is skipped. *)
Definition summary_skipped : Summary :=
  {| summary_failed := 0; summary_passed := 0; summary_skipped := 1 |}.
Definition w_skipped : World :=
  world [suite_ex] ([], [payload_ex "aaa-aaa-aaa"], summary_skipped)
        (inr tunnelInfo_ex) (inr (mkTrigger [] None)).

(** The one selected test is skipped and the tunnel does not start. *)
Definition w_skipped_no_tunnel : World :=
  world [suite_ex] ([], [payload_ex "aaa-aaa-aaa"], summary_skipped)
        (inl (mkError "connection refused")) (inr (mkTrigger [] None)).

(** The tunnel starts and the trigger request fails. *)
Definition w_trigger_fails : World :=
  world [suite_ex] (tests_ex, payloads_ex, summary_0) (inr tunnelInfo_ex)
        (inl (mkError "Failed to trigger tests")).

(** The tunnel starts and the trigger answer has no results. *)
Definition w_no_results : World :=
  world [suite_ex] (tests_ex, payloads_ex, summary_0) (inr tunnelInfo_ex)
        (inr (mkTrigger [] None)).

(** The tunnel does not start. *)
Definition w_no_tunnel : World :=
  world [suite_ex] (tests_ex, payloads_ex, summary_0)
        (inl (mkError "connection refused")) (inr triggers_ex).

Definition tc_ex : TriggerConfig :=
  {| suite := "search-panel.synthetics.json";
     config := {[ "headers"%string := headers_b ]};
     id := "aaa-aaa-aaa" |}.
Definition tts_ex : list TriggerConfig := [tc_ex].

Definition tts_cli : list TriggerConfig :=
  [ {| suite := "CLI Suite"; config := global config_ex; id := "aaa-aaa-aaa" |} ].

(** A poller whose first poll resolves the instance of result id 1 and
    whose later polls fail. *)
Definition pollResults_ex (n : nat) (outstandingIds : list string)
    : Error + list PollResult :=
  if (n =? 1)%nat then inr [pollResult_ex "1" true]
  else inl (mkError "ECONNRESET").

Definition triggerResults_ex : list TriggerResult :=
  [triggerResult_ex "aaa-aaa-aaa" "1";
   triggerResult_ex "bbb-bbb-bbb" "2";
   triggerResult_ex "ccc-ccc-ccc" "3"].

(** The API refuses the presigned URL. *)
Definition w_no_url : World :=
  {| parseConfigFile := parseConfigFile w_ex; searchTests := searchTests w_ex;
     getSuites := getSuites w_ex; getTestsToTrigger := getTestsToTrigger w_ex;
     getPresignedURL := fun _ => inl (mkError "Forbidden");
     tunnelStart := tunnelStart w_ex; runTests := runTests w_ex;
     waitForResults := waitForResults w_ex; testEnd := testEnd w_ex |}.

(** The configuration has an application key and no API key. *)
Definition config_no_api_key : Config :=
  {| cfg_apiKey := None; cfg_appKey := Some "app"%string;
     datadogSite := "datadoghq.eu"; files := "{,!(node_modules)/**/}*.synthetics.json";
     global := ∅; pollingTimeout := 120000; proxy := mkProxy "http"; subdomain := "app";
     cfg_tunnel := false |}.

Definition w_no_api_key : World :=
  {| parseConfigFile := inr config_no_api_key; searchTests := searchTests w_ex;
     getSuites := getSuites w_ex; getTestsToTrigger := getTestsToTrigger w_ex;
     getPresignedURL := getPresignedURL w_ex;
     tunnelStart := tunnelStart w_ex; runTests := runTests w_ex;
     waitForResults := waitForResults w_ex; testEnd := testEnd w_ex |}.

(** The search finds two tests; one glob of two cannot be read. *)
Definition w_search : World :=
  {| parseConfigFile := parseConfigFile w_ex;
     searchTests := fun _ => inr ["aaa-aaa-aaa"%string; "bbb-bbb-bbb"%string];
     getSuites := fun glob =>
       if String.eqb glob "broken/*.json" then inl (mkError "Unexpected token")
       else inr [suite_ex; mkSuite "empty.synthetics.json" None];
     getTestsToTrigger := getTestsToTrigger w_ex;
     getPresignedURL := getPresignedURL w_ex;
     tunnelStart := tunnelStart w_ex; runTests := runTests w_ex;
     waitForResults := waitForResults w_ex; testEnd := testEnd w_ex |}.

Definition cmd_search : Command :=
  {| apiKey := None; appKey := None; configPath := None; fileGlobs := None;
     jUnitReport := None; publicIds := []; runName := None;
     shouldOpenTunnel := None; testSearchQuery := Some "tag:ci"%string |}.

Definition cmd_globs : Command :=
  {| apiKey := Some "cli-api"%string; appKey := None; configPath := None;
     fileGlobs := Some ["tests/*.json"%string; "broken/*.json"%string];
     jUnitReport := None; publicIds := []; runName := None;
     shouldOpenTunnel := Some false; testSearchQuery := None |}.


End RunTestExamples.

(** * Properties *)

(** ** The dependencies upload command *)

Module UploadFacts.
Import Upload UploadExamples.

Section Facts.
Variable (cmd : Command) (w : World).

(** The main error of a retry operation that recorded an error exists, so
    a retry loop that gives up always rejects with a recorded error. *)
Lemma mainError_from_Some errors : ∀ counts e mainCount,
  is_Some (mainError_from errors counts (Some e) mainCount).
Proof.
  induction errors as [|error rest IH]; intros counts e mainCount; cbn; [eauto|].
  destruct (_ <=? _)%nat; apply IH.
Qed.

Lemma mainError_nonempty errors : errors ≠ [] → is_Some (mainError errors).
Proof.
  destruct errors as [|error rest]; [done|]. intros _.
  unfold mainError. cbn. apply mainError_from_Some.
Qed.

(** What one attempt does, by cases on the flag and the oracle. *)
Lemma attempt_unfold payload num :
  attempt cmd w payload num =
    if dryRun cmd then ([Stdout renderDryRunUpload], inr Resolved)
    else match uploadDependenciesApi w num with
         | inr _ => ([Stdout renderUpload; ApiUploadDependencies num payload;
                      MetricIncrement "success"], inr Resolved)
         | inl e => ([Stdout renderUpload; ApiUploadDependencies num payload],
                     if retryable e then inl e else inr (Bailed e))
         end.
Proof.
  unfold attempt. destruct (dryRun cmd); [reflexivity|].
  cbn. destruct (uploadDependenciesApi w num) as [e|[]]; cbn; [|reflexivity].
  destruct (retryable e); reflexivity.
Qed.

Lemma retry_from_dry payload k num errs :
  dryRun cmd = true →
  retry_from (attempt cmd w payload) (onRetry) k num errs
  = ([Stdout renderDryRunUpload], inr tt).
Proof.
  intros Hdry. destruct k; cbn [retry_from]; rewrite attempt_unfold, Hdry; reflexivity.
Qed.

Lemma loopEvent_weaken payload lo ev :
  (∃ e, uploadDependenciesApi w lo = inl e ∧ retryable e = true) →
  loopEvent w payload (S lo) ev → loopEvent w payload lo ev.
Proof.
  intros Hlo. destruct ev as [r|r|j q| | |]; cbn; try done.
  intros (-> & Hj & Hi). split; [done|]. split; [lia|].
  intros i Hi'. destruct (decide (i = lo)) as [->|]; [done|]. apply Hi. lia.
Qed.

Lemma loopEvent_attempt payload num :
  loopEvent w payload num (ApiUploadDependencies num payload).
Proof. cbn. repeat split; [lia|]. intros i Hi. lia. Qed.

Ltac loop_events :=
  repeat (apply List.Forall_cons; [first [exact I | apply loopEvent_attempt]|]);
  try apply List.Forall_nil.

Lemma retry_from_inv payload k : ∀ num errs,
  let m := retry_from (attempt cmd w payload) onRetry k num errs in
  (length (uploads m.1) ≤ S k)%nat ∧
  Forall (loopEvent w payload num) m.1 ∧
  (∀ j q e, ApiUploadDependencies j q ∈ m.1 →
            uploadDependenciesApi w j = inl e → retryable e = false → m.2 = inl e).
Proof.
  induction k as [|k IH]; intros num errs; cbn zeta;
    cbn [retry_from]; rewrite attempt_unfold.
  all: destruct (dryRun cmd);
    [ cbn; repeat split; [lia | by repeat constructor |];
      intros j q e Hin; apply list_elem_of_singleton in Hin; done |].
  all: destruct (uploadDependenciesApi w num) as [e|[]] eqn:Hnum;
    [ destruct (retryable e) eqn:Hre |].
  all: try (cbn; repeat split;
            [ lia
            | loop_events
            | intros j q e' Hin Hj Hre'; set_unfold in Hin;
              repeat (destruct Hin as [Hin|Hin]; try done);
              inversion Hin; subst; congruence ]).
  specialize (IH (S num) (errs ++ [e])). cbn zeta in IH.
  cbn. unfold mbind, eff_bind, Eff.bind. cbn.
  destruct (retry_from _ _ k (S num) (errs ++ [e])) as [tr r] eqn:Hrec.
  cbn in *. destruct IH as (Hlen & Hall & Hbail).
  repeat split.
  - unfold uploads in *. cbn. lia.
  - loop_events. eapply Forall_impl; [exact Hall|]. intros ev.
    apply loopEvent_weaken. eauto.
  - intros j q e' Hin Hj Hre'. set_unfold in Hin.
    destruct Hin as [|[Hin|[|[|Hin]]]]; try done.
    + inversion Hin; subst. congruence.
    + eapply Hbail; eauto.
Qed.

Lemma execute_invalid :
  invalidInput cmd = true →
  ∃ r, execute cmd w = ([Stderr r], inr (Some INVALID_INPUT_EXIT_CODE)).
Proof.
  unfold invalidInput, execute.
  destruct (truthy (source cmd)); cbn; [|eauto].
  destruct (bool_decide _); cbn; [|eauto].
  destruct (truthy (service cmd)); cbn; [|eauto].
  destruct (truthy (appKey cmd)); cbn; [|eauto].
  destruct (truthy (apiKey cmd)); cbn; [|eauto].
  discriminate.
Qed.

Lemma execute_missing_file :
  invalidInput cmd = false → existsSync w = false →
  execute cmd w
  = (preamble cmd ++ [Stderr (renderCannotFindFile (dependenciesFilePath cmd))],
     inr (Some MISSING_FILE_EXIT_CODE)).
Proof.
  unfold invalidInput, execute, preamble. intros Hv ->.
  destruct (truthy (source cmd)); [|discriminate].
  destruct (bool_decide _); [|discriminate].
  destruct (truthy (service cmd)); [|discriminate].
  destruct (truthy (appKey cmd)); [|discriminate].
  destruct (truthy (apiKey cmd)); [|discriminate].
  destruct (truthy (releaseVersion cmd)); reflexivity.
Qed.

Lemma execute_upload :
  invalidInput cmd = false → existsSync w = true →
  execute cmd w
  = match uploadDependencies cmd w (payload cmd) with
    | (tr, inr _) =>
        (preamble cmd ++ commandInfo cmd :: tr
           ++ [Stdout renderSuccessfulCommand; MetricGauge "duration"] ++ flushed w,
         inr None)
    | (tr, inl error) =>
        (preamble cmd ++ commandInfo cmd :: tr
           ++ [Stderr (errorLine (message error))] ++ flushed w,
         inr (Some UPLOAD_ERROR_EXIT_CODE))
    end.
Proof.
  unfold invalidInput, execute, preamble, flushed, commandInfo. intros Hv ->.
  destruct (truthy (source cmd)); [|discriminate].
  destruct (bool_decide _); [|discriminate].
  destruct (truthy (service cmd)); [|discriminate].
  destruct (truthy (appKey cmd)); [|discriminate].
  destruct (truthy (apiKey cmd)); [|discriminate].
  cbn [negb]. unfold mbind, eff_bind, Eff.bind, Eff.try_finally, Eff.try_catch.
  destruct (uploadDependencies cmd w (payload cmd)) as [tr [e|[]]]; cbn;
    destruct (truthy (releaseVersion cmd)); cbn;
    destruct (flush w) as [err|[]]; cbn;
    rewrite <- ?app_assoc; cbn; rewrite ?app_nil_r; reflexivity.
Qed.


Lemma uploadDependencies_unfold p :
  uploadDependencies cmd w p
  = match retry (attempt cmd w p) onRetry 5 with
    | (tr, inr u) => (tr, inr u)
    | (tr, inl e) =>
        (tr ++ [Stdout (if forbidden e
                        then renderFailedUploadBecauseOf403 (message e)
                        else renderFailedUpload (message e));
                MetricIncrement "failed"],
         inl e)
    end.
Proof.
  unfold uploadDependencies, Eff.try_catch.
  destruct (retry _ _ _) as [tr [e|u]]; [|reflexivity].
  destruct (forbidden e); reflexivity.
Qed.

Lemma uploads_app tr1 tr2 : uploads (tr1 ++ tr2) = uploads tr1 ++ uploads tr2.
Proof. apply List.filter_app. Qed.

(** Every upload request of a run is one of the retry loop. *)
Lemma execute_trace_uploads :
  uploads (Eff.trace (execute cmd w))
  = if invalidInput cmd || negb (existsSync w) then []
    else uploads (Eff.trace (retry (attempt cmd w (payload cmd)) onRetry 5)).
Proof.
  destruct (invalidInput cmd) eqn:Hv; cbn [orb].
  { destruct (execute_invalid Hv) as [r ->]. reflexivity. }
  destruct (existsSync w) eqn:Hf; cbn [negb].
  - rewrite (execute_upload Hv Hf), uploadDependencies_unfold.
    unfold Eff.trace, preamble, flushed.
    destruct (retry _ _ _) as [tr [e|u]]; cbn [fst];
      rewrite ?uploads_app; cbn;
      destruct (truthy (releaseVersion cmd)); cbn;
      rewrite ?uploads_app; cbn;
      destruct (flush w); try destruct (forbidden e);
      cbn; rewrite ?app_nil_r; reflexivity.
  - rewrite (execute_missing_file Hv Hf). unfold Eff.trace, preamble. cbn.
    rewrite uploads_app. destruct (truthy _); reflexivity.
Qed.

Lemma elem_of_uploads ev tr : ev ∈ uploads tr ↔ ev ∈ tr ∧ isUpload ev = true.
Proof. unfold uploads. rewrite !list_elem_of_In. apply List.filter_In. Qed.


Lemma execute_upload_event j q :
  ApiUploadDependencies j q ∈ Eff.trace (execute cmd w) →
  invalidInput cmd = false ∧ existsSync w = true ∧
  ApiUploadDependencies j q ∈ Eff.trace (retry (attempt cmd w (payload cmd)) onRetry 5).
Proof.
  intros Hin.
  assert (Hup : ApiUploadDependencies j q ∈ uploads (Eff.trace (execute cmd w)))
    by (apply elem_of_uploads; done).
  rewrite execute_trace_uploads in Hup.
  destruct (invalidInput cmd); [by apply elem_of_nil in Hup|].
  destruct (existsSync w); [|by apply elem_of_nil in Hup].
  apply elem_of_uploads in Hup as [Hup _]. done.
Qed.

Lemma no_retry_not_retryable e status :
  response e = Some status → status ∈ errorCodesNoRetry → retryable e = false.
Proof.
  intros He Hst. unfold retryable. rewrite He.
  by rewrite bool_decide_eq_true_2.
Qed.
End Facts.

(** C7, as amended: a run sends the upload request at most 6 times (one
    first attempt and at most 5 retries); an attempt that fails with HTTP
    status 400, 403 or 413 is the last one; and when an attempt fails with
    status 403 the run prints the authorization-failure message, never
    the generic one, and returns the upload-error exit code. *)
Theorem upload_retry_policy (cmd : Command) (w : World) :
  let tr := Eff.trace (execute cmd w) in
  (length (uploads tr) ≤ 6)%nat ∧
  (∀ j q e status,
      ApiUploadDependencies j q ∈ tr →
      uploadDependenciesApi w j = inl e →
      response e = Some status → status ∈ errorCodesNoRetry →
      ∀ j' q', ApiUploadDependencies j' q' ∈ tr → (j' ≤ j)%nat) ∧
  (∀ j q e,
      ApiUploadDependencies j q ∈ tr →
      uploadDependenciesApi w j = inl e →
      response e = Some 403 →
      Stdout (renderFailedUploadBecauseOf403 (message e)) ∈ tr ∧
      (∀ msg, Stdout (renderFailedUpload msg) ∉ tr) ∧
      Eff.outcome (execute cmd w) = inr (Some UPLOAD_ERROR_EXIT_CODE)).
Proof.
  cbn zeta. pose proof (retry_from_inv cmd w (payload cmd) 5 1 []) as (Hlen & Hall & Hbail).
  fold (retry (attempt cmd w (payload cmd)) (onRetry) 5) in Hlen, Hall, Hbail.
  split; [|split].
  - rewrite execute_trace_uploads. destruct (_ || _); [cbn; lia|exact Hlen].
  - intros j q e status Hj Hapi Hresp Hst j' q' Hj'.
    apply execute_upload_event in Hj as (_ & _ & Hj).
    apply execute_upload_event in Hj' as (_ & _ & Hj').
    rewrite Forall_forall in Hall.
    apply Hall in Hj' as (_ & Hlo & Hprev).
    destruct (decide (j' ≤ j)%nat) as [|Hgt]; [done|].
    apply Hall in Hj as (_ & Hlo' & _).
    destruct (Hprev j) as (e' & He' & Hre'); [lia|].
    rewrite Hapi in He'. injection He' as <-.
    rewrite (no_retry_not_retryable e status) in Hre' by done. discriminate.
  - intros j q e Hj Hapi Hresp.
    apply execute_upload_event in Hj as (Hv & Hf & Hj).
    assert (Hre : retryable e = false).
    { apply (no_retry_not_retryable e 403); [done|]. unfold errorCodesNoRetry. set_solver. }
    specialize (Hbail j q e Hj Hapi Hre).
    rewrite (execute_upload cmd w Hv Hf), uploadDependencies_unfold.
    unfold Eff.trace, Eff.outcome in *.
    destruct (retry _ _ _) as [tr r]. cbn in Hbail, Hall, Hj. subst r. cbn.
    assert (Hf403 : forbidden e = true).
    { unfold forbidden. rewrite Hresp. by apply bool_decide_eq_true_2. }
    rewrite Hf403. split; [|split; [|done]].
    + set_solver.
    + intros msg Hin. rewrite Forall_forall in Hall.
      unfold preamble, flushed, commandInfo in Hin.
      rewrite !elem_of_app, !elem_of_cons, !elem_of_app in Hin.
      destruct Hin as [Hin|[Hin|[[Hin|Hin]|Hin]]].
      * destruct (truthy _); set_unfold in Hin; naive_solver.
      * done.
      * apply Hall in Hin. done.
      * set_unfold in Hin. naive_solver.
      * destruct (flush w); set_unfold in Hin; naive_solver.
Qed.

(** C7, as stated, fails: when every request is answered with status 500
    the upload is attempted 6 times, not at most 5. *)
Lemma upload_attempted_six_times :
  ¬ (length (uploads (Eff.trace (execute cmd_ok w_500))) ≤ 5)%nat.
Proof.
  assert (H : length (uploads (Eff.trace (execute cmd_ok w_500))) = 6%nat)
    by (vm_compute; reflexivity).
  rewrite H. lia.
Qed.

Lemma upload_retry_policy_witness :
  (length (uploads (Eff.trace (execute cmd_ok w_403))) ≤ 6)%nat ∧
  (∀ j' q', ApiUploadDependencies j' q' ∈ Eff.trace (execute cmd_ok w_403) → (j' ≤ 2)%nat) ∧
  Stdout (renderFailedUploadBecauseOf403 "Forbidden") ∈ Eff.trace (execute cmd_ok w_403) ∧
  Eff.outcome (execute cmd_ok w_403) = inr (Some UPLOAD_ERROR_EXIT_CODE).
Proof.
  destruct (upload_retry_policy cmd_ok w_403) as (Hlen & Hstop & H403).
  assert (Hin : ApiUploadDependencies 2 (payload cmd_ok) ∈ Eff.trace (execute cmd_ok w_403)).
  { vm_compute. repeat first [apply list_elem_of_here | apply list_elem_of_further]. }
  split; [exact Hlen|]. split.
  - apply (Hstop 2%nat (payload cmd_ok) (mkError "Forbidden" (Some 403)) 403 Hin).
    + reflexivity.
    + reflexivity.
    + unfold errorCodesNoRetry. apply list_elem_of_further, list_elem_of_here.
  - destruct (H403 2%nat (payload cmd_ok) (mkError "Forbidden" (Some 403)) Hin)
      as (Hmsg & _ & Hout); [reflexivity|reflexivity|].
    split; [exact Hmsg|exact Hout].
Defined.

(** C8: the three failure classes of the command return three pairwise
    distinct exit codes: one for invalid input (missing or unsupported
    --source, missing --service, missing DATADOG_APP_KEY or
    DATADOG_API_KEY), another when the dependencies file does not exist,
    a third when the upload fails after validation. *)
Theorem upload_exit_codes (cmd : Command) (w : World) :
  (invalidInput cmd = true →
   Eff.outcome (execute cmd w) = inr (Some INVALID_INPUT_EXIT_CODE)) ∧
  (invalidInput cmd = false → existsSync w = false →
   Eff.outcome (execute cmd w) = inr (Some MISSING_FILE_EXIT_CODE)) ∧
  (invalidInput cmd = false → existsSync w = true →
   ∀ e, Eff.outcome (uploadDependencies cmd w (payload cmd)) = inl e →
        Eff.outcome (execute cmd w) = inr (Some UPLOAD_ERROR_EXIT_CODE)) ∧
  INVALID_INPUT_EXIT_CODE ≠ MISSING_FILE_EXIT_CODE ∧
  INVALID_INPUT_EXIT_CODE ≠ UPLOAD_ERROR_EXIT_CODE ∧
  MISSING_FILE_EXIT_CODE ≠ UPLOAD_ERROR_EXIT_CODE.
Proof.
  repeat split; try discriminate.
  - intros Hv. destruct (execute_invalid cmd w Hv) as [r ->]. reflexivity.
  - intros Hv Hf. rewrite (execute_missing_file cmd w Hv Hf). reflexivity.
  - intros Hv Hf e He. rewrite (execute_upload cmd w Hv Hf).
    unfold Eff.outcome in *.
    destruct (uploadDependencies cmd w (payload cmd)) as [tr r].
    cbn in He. subst r. reflexivity.
Qed.

Lemma upload_exit_codes_witness :
  Eff.outcome (execute cmd_no_service w_500) = inr (Some 1) ∧
  Eff.outcome (execute cmd_ok w_no_file) = inr (Some 2) ∧
  Eff.outcome (execute cmd_ok w_500) = inr (Some 3).
Proof.
  split; [|split].
  - apply (upload_exit_codes cmd_no_service w_500). reflexivity.
  - apply (upload_exit_codes cmd_ok w_no_file); reflexivity.
  - apply (upload_exit_codes cmd_ok w_500) with
      (e := mkError "Internal Server Error" (Some 500)); reflexivity.
Defined.

(** C10: a run with --dry-run that passes validation and finds the file
    never calls [api.uploadDependencies] and completes through the
    success path: it prints the success message and returns no error
    code. *)
Theorem dry_run_sends_nothing (cmd : Command) (w : World) :
  dryRun cmd = true → invalidInput cmd = false → existsSync w = true →
  (∀ j q, ApiUploadDependencies j q ∉ Eff.trace (execute cmd w)) ∧
  Stdout renderDryRunUpload ∈ Eff.trace (execute cmd w) ∧
  Stdout renderSuccessfulCommand ∈ Eff.trace (execute cmd w) ∧
  Eff.outcome (execute cmd w) = inr None.
Proof.
  intros Hdry Hv Hf.
  assert (Hup : uploadDependencies cmd w (payload cmd)
                = ([Stdout renderDryRunUpload], inr tt)).
  { rewrite uploadDependencies_unfold. unfold retry.
    rewrite retry_from_dry by done. reflexivity. }
  split.
  - intros j q Hin. apply execute_upload_event in Hin as (_ & _ & Hin).
    unfold retry in Hin. rewrite retry_from_dry in Hin by done.
    apply list_elem_of_singleton in Hin. discriminate.
  - rewrite (execute_upload cmd w Hv Hf), Hup. unfold Eff.trace, Eff.outcome. cbn.
    split; [|split; [|reflexivity]].
    + rewrite elem_of_app, !elem_of_cons. auto.
    + rewrite elem_of_app, !elem_of_cons. auto.
Qed.

Lemma dry_run_sends_nothing_witness :
  (∀ j q, ApiUploadDependencies j q ∉ Eff.trace (execute cmd_dry w_500)) ∧
  Eff.outcome (execute cmd_dry w_500) = inr None.
Proof.
  destruct (dry_run_sends_nothing cmd_dry w_500) as (Hno & _ & _ & Hout);
    [reflexivity|reflexivity|reflexivity|].
  split; [exact Hno|exact Hout].
Defined.

End UploadFacts.

(** ** The synthetics run-tests command *)

Module RunTestFacts.
Import Interfaces RunTest RunTestExamples.

(** *** Sorting *)

Section SortFacts.
Context {A : Type} (compare : A → A → Z).

Lemma insert_sorted_Permutation x l : insert_sorted compare x l ≡ₚ x :: l.
Proof.
  induction l as [|y l IH]; cbn; [done|].
  destruct (compare x y <=? 0); [done|].
  rewrite IH. apply Permutation_swap.
Qed.

Lemma sort_Permutation l : sort compare l ≡ₚ l.
Proof.
  induction l as [|x l IH]; cbn; [done|].
  fold (sort compare l). by rewrite insert_sorted_Permutation, IH.
Qed.

(** With a comparator that orders any two elements one way or the
    other, the result is ordered: no element is followed by one that
    must come before it. *)
Hypothesis compare_total : ∀ x y, compare x y ≤ 0 ∨ compare y x ≤ 0.

Lemma insert_sorted_Sorted x l :
  Sorted (fun a b => compare a b ≤ 0) l →
  Sorted (fun a b => compare a b ≤ 0) (insert_sorted compare x l).
Proof.
  induction 1 as [|y l Hl IH Hhd]; cbn.
  - by repeat constructor.
  - destruct (Z.leb_spec (compare x y) 0) as [Hle|Hgt].
    + by repeat constructor.
    + constructor; [exact IH|].
      destruct Hhd as [|z l' Hz]; cbn.
      * constructor. destruct (compare_total y x); lia.
      * destruct (compare x z <=? 0); constructor; [|done].
        destruct (compare_total y x); lia.
Qed.

Lemma sort_Sorted l : Sorted (fun a b => compare a b ≤ 0) (sort compare l).
Proof.
  induction l as [|x l IH]; cbn; [constructor|].
  by apply insert_sorted_Sorted.
Qed.
End SortFacts.

Section Comparator.
Variable hasTestSucceeded : option (list PollResult) → bool.
Variable results : gmap string (list PollResult).

Abbreviation compare := (sortTestsByOutcome hasTestSucceeded results).
Abbreviation success := (RunTest.success hasTestSucceeded results).

Lemma sortTestsByOutcome_total t1 t2 : compare t1 t2 ≤ 0 ∨ compare t2 t1 ≤ 0.
Proof.
  unfold sortTestsByOutcome.
  destruct (hasTestSucceeded (results !! public_id t1)),
           (hasTestSucceeded (results !! public_id t2)),
           (isNonBlocking t1), (isNonBlocking t2); cbn; lia.
Qed.

(** C2: the comparator answers -1, 0 or 1; 0 for two tests of equal
    success and equal classification; for equal success and different
    classification the NON_BLOCKING test goes first; for different
    success the succeeding test goes first.  Sorting a failing blocking
    test A, a passing test B and a failing non-blocking test C, given in
    this order, yields B, C, A. *)
Theorem sortTestsByOutcome_rule (t1 t2 : Test) :
  (compare t1 t2 = -1 ∨ compare t1 t2 = 0 ∨ compare t1 t2 = 1) ∧
  (success t1 = success t2 → isNonBlocking t1 = isNonBlocking t2 →
   compare t1 t2 = 0) ∧
  (success t1 = success t2 → isNonBlocking t1 = true → isNonBlocking t2 = false →
   compare t1 t2 = -1 ∧ compare t2 t1 = 1) ∧
  (success t1 = true → success t2 = false →
   compare t1 t2 = -1 ∧ compare t2 t1 = 1) ∧
  (∀ A B C : Test,
      success A = false → isNonBlocking A = false →
      success B = true →
      success C = false → isNonBlocking C = true →
      sort compare [A; B; C] = [B; C; A]).
Proof.
  unfold RunTest.success, sortTestsByOutcome.
  split; [|split; [|split; [|split]]].
  - destruct (hasTestSucceeded (results !! public_id t1)),
             (hasTestSucceeded (results !! public_id t2)),
             (isNonBlocking t1), (isNonBlocking t2); cbn; auto.
  - intros -> ->. by rewrite !Bool.eqb_reflx.
  - intros -> -> ->. by rewrite Bool.eqb_reflx.
  - intros -> ->. done.
  - intros A B C HA HnA HB HC HnC.
    set (cmp := fun t1 t2 : Test => _).
    assert (HBC : cmp B C = -1) by (unfold cmp; by rewrite HB, HC).
    assert (HAB : cmp A B = 1) by (unfold cmp; by rewrite HA, HB).
    assert (HAC : cmp A C = 1) by (unfold cmp; by rewrite HA, HC, HnA, HnC).
    unfold sort. cbn [foldr insert_sorted].
    rewrite HBC. cbn [Z.leb Z.compare insert_sorted].
    rewrite HAB. cbn [Z.leb Z.compare insert_sorted].
    rewrite HAC. reflexivity.
Qed.
End Comparator.

(** *** Test discovery *)

Lemma spread_lookup (a : ConfigOverride) (b : option ConfigOverride) (key : string) :
  spread a b !! key
  = match b ≫= (fun b => b !! key) with
    | Some v => Some v
    | None => a !! key
    end.
Proof.
  destruct b as [b|]; cbn; [|reflexivity].
  rewrite lookup_union. destruct (b !! key), (a !! key); reflexivity.
Qed.

Lemma foldl_app_concat {A} (ls : list (list A)) (acc : list A) :
  foldl (fun acc val => acc ++ val) acc ls = acc ++ concat ls.
Proof.
  revert acc. induction ls as [|l ls IH]; intros acc; cbn.
  - by rewrite app_nil_r.
  - by rewrite IH, app_assoc.
Qed.

Lemma forM_call_inr {A B} (ev : A → Event) (answer : A → Error + B) l ys :
  Eff.outcome (forM (fun x => call (ev x) (answer x)) l) = inr ys →
  Forall2 (fun x y => answer x = inr y) l ys.
Proof.
  revert ys. induction l as [|x l IH]; intros ys; cbn.
  - intros [= <-]. constructor.
  - unfold call, mbind, eff_bind, Eff.bind, Eff.outcome in *.
    destruct (answer x) as [e|y] eqn:Hx; cbn; [discriminate|].
    destruct (forM _ l) as [tr [e|ys']]; cbn in *; [discriminate|].
    intros [= <-]. constructor; [done|]. by apply IH.
Qed.

Section Discovery.
Variable (cmd : Command) (w : World).

(** C3, as amended: the effective config of a suite-discovered test is
    the spread of the global override and the test's own override: key
    by key at the top level, the test's value when the test has the
    key, the global value otherwise; a value that is itself a map is
    taken whole, not merged. *)
Theorem suite_test_config (cfg : Config) (l : list TriggerConfig) :
  truthy (testSearchQuery cmd) = false →
  Eff.outcome (getTestsList cmd w cfg) = inr l →
  ∀ tc, tc ∈ l →
    ∃ glob found s tests t,
      glob ∈ default [files cfg] (fileGlobs cmd) ∧
      getSuites w glob = inr found ∧ s ∈ found ∧
      content_tests s = Some tests ∧ t ∈ tests ∧
      suite tc = suite_name s ∧ id tc = test_id t ∧
      ∀ key, config tc !! key
             = match test_config t ≫= (fun c => c !! key) with
               | Some v => Some v
               | None => global cfg !! key
               end.
Proof.
  intros Hq. unfold getTestsList. rewrite Hq.
  unfold mbind at 1. unfold eff_bind, Eff.bind, Eff.outcome.
  destruct (forM _ _) as [tr [e|found]] eqn:Hfound; cbn; [discriminate|].
  intros [= <-] tc Htc.
  assert (Hall : Forall2 (fun glob ss => getSuites w glob = inr ss)
                         (default [files cfg] (fileGlobs cmd)) found).
  { apply (forM_call_inr GetSuites (getSuites w)).
    unfold Eff.outcome. by rewrite Hfound. }
  rewrite !foldl_app_concat in Htc. cbn in Htc.
  apply list_elem_of_In, List.in_concat in Htc as (tcs & Htcs & Htc).
  apply List.in_map_iff in Htcs as (s & <- & Hs).
  apply list_elem_of_In, list_elem_of_filter in Hs as [Hsome Hs].
  apply list_elem_of_In, List.in_concat in Hs as (ss & Hss & Hs).
  apply List.in_map_iff in Htc as (t & <- & Ht).
  destruct Hsome as [tests Htests]. rewrite Htests in Ht. cbn in Ht.
  apply list_elem_of_In in Hss.
  destruct (proj1 (list_elem_of_lookup _ _) Hss) as [i Hi].
  destruct (Forall2_lookup_r _ _ _ _ _ Hall Hi) as (glob & Hglob & Hget).
  exists glob, ss, s, tests, t. cbn.
  repeat split; try done.
  - by eapply list_elem_of_lookup_2.
  - by apply list_elem_of_In.
  - by apply list_elem_of_In.
  - intros key. apply spread_lookup.
Qed.
End Discovery.

(** *** The run *)

Section Run.
Variable hasTestSucceeded : option (list PollResult) → bool.
Variable (cmd : Command) (w : World).

Lemma openTunnel_unfold config ids ov :
  openTunnel cmd w config ids ov
  = if tunnelRequested cmd config then
      match getPresignedURL w ids with
      | inl e => ([tunnelNotice; ApiGetPresignedURL ids], inl e)
      | inr url =>
          match tunnelStart w (mkTunnel url ids) with
          | inl e =>
              ([tunnelNotice; ApiGetPresignedURL ids; TunnelStart url ids;
                ReporterError " ERROR on tunnel start " (Some e)],
               inr (inl 1))
          | inr tunnelInfo =>
              ([tunnelNotice; ApiGetPresignedURL ids; TunnelStart url ids],
               inr (inr (Some (mkTunnel url ids), map (withTunnel tunnelInfo) ov)))
          end
      end
    else ([], inr (inr (None, ov))).
Proof.
  unfold openTunnel, tunnelRequested.
  destruct (match shouldOpenTunnel cmd with Some b => b | None => _ end); [|reflexivity].
  cbn. destruct (getPresignedURL w ids) as [e|url]; cbn; [reflexivity|].
  destruct (tunnelStart w _) as [e|info]; reflexivity.
Qed.

Lemma pollAndReport_unfold config tts tests summary triggers trs tunnel_ :
  pollAndReport hasTestSucceeded w config tts tests summary triggers trs tunnel_
  = match waitForResults w trs (pollingTimeout config) tts tunnel_ with
    | inl e =>
        (WaitForResults trs (pollingTimeout config)
           :: ReporterError " ERROR " (Some e) :: stopEvents tunnel_,
         inr 1)
    | inr results =>
        match reportTests hasTestSucceeded w results (locationNamesOf triggers)
                (sort (sortTestsByOutcome hasTestSucceeded results) tests)
                summary true with
        | (tr, inl e) =>
            (WaitForResults trs (pollingTimeout config) :: ReportStart
               :: tr ++ ReporterError " ERROR " (Some e) :: stopEvents tunnel_,
             inr 1)
        | (tr, inr (summary', hasSucceeded)) =>
            (WaitForResults trs (pollingTimeout config) :: ReportStart
               :: tr ++ RunEnd summary' :: stopEvents tunnel_,
             inr (if hasSucceeded : bool then 0 else 1))
        end
    end.
Proof.
  unfold pollAndReport, stopEvents, locationNamesOf, call.
  unfold mbind, eff_bind, Eff.bind, Eff.try_catch, Eff.try_finally.
  destruct (waitForResults w trs _ tts tunnel_) as [e|results]; cbn.
  { destruct tunnel_; reflexivity. }
  destruct (reportTests _ _ _ _ _ _ _) as [tr [e|[summary' hs]]]; cbn.
  - destruct tunnel_; cbn; rewrite <- ?app_assoc; cbn; rewrite ?app_nil_r; reflexivity.
  - destruct hs; destruct tunnel_; cbn; rewrite <- ?app_assoc; cbn;
      rewrite ?app_nil_r; reflexivity.
Qed.

Lemma reportTests_spec results names : ∀ tests summary hs,
  match reportTests hasTestSucceeded w results names tests summary hs with
  | (tr, inr (summary', hs')) =>
      Forall (fun t => testEnd w t = inr tt) tests ∧
      summary_failed summary' = summary_failed summary + failures hasTestSucceeded results tests ∧
      hs' = hs && forallb (fun t => negb (blockingFailure hasTestSucceeded results t)) tests
  | (tr, inl e) => Exists (fun t => testEnd w t = inl e) tests
  end ∧
  Forall (fun ev => isTestEnd ev = true)
         (reportTests hasTestSucceeded w results names tests summary hs).1.
Proof.
  induction tests as [|t tests IH]; intros summary hs; cbn [reportTests].
  - cbn. unfold failures. cbn. rewrite andb_true_r.
    repeat split; [constructor|lia|constructor].
  - unfold call, mbind, eff_bind, Eff.bind. fold (success hasTestSucceeded results t).
    destruct (testEnd w t) as [e|[]] eqn:Hend.
    { cbn. split; [by left|]. by repeat constructor. }
    match goal with
    | |- context [reportTests _ _ _ _ tests ?s ?h] =>
        specialize (IH s h); destruct (reportTests _ _ _ _ tests s h)
          as [tr [e|[summary' hs']]]
    end.
    + cbn in *. destruct IH as [IH Htr]. split; [by right|]. by constructor.
    + cbn in *. destruct IH as [(Hall & Hfailed & Hhs) Htr].
      split; [|by constructor]. split; [by constructor|].
      unfold failures, blockingFailure in *. cbn [List.filter forallb].
      destruct (success hasTestSucceeded results t); cbn in *.
      * split; [lia|done].
      * split; [lia|]. rewrite Hhs.
        destruct (isNonBlocking t); cbn; [done|]. by rewrite andb_false_r.
Qed.

Lemma failures_Permutation results tests tests' :
  tests ≡ₚ tests' → failures hasTestSucceeded results tests = failures hasTestSucceeded results tests'.
Proof.
  unfold failures. intros Hp. f_equal.
  induction Hp as [|t l l' Hp IH|t t' l|l l' l'' Hp IH Hp' IH']; cbn.
  - done.
  - destruct (negb _); cbn; by rewrite IH.
  - destruct (negb (success hasTestSucceeded results t)), (negb (success hasTestSucceeded results t')); done.
  - by rewrite IH.
Qed.

Lemma forallb_Permutation {A} (f : A → bool) l l' :
  l ≡ₚ l' → forallb f l = forallb f l'.
Proof.
  induction 1 as [|x l l' Hp IH|x y l|l l' l'' Hp IH Hp' IH']; cbn.
  - done.
  - by rewrite IH.
  - destruct (f x), (f y); done.
  - by rewrite IH.
Qed.

Lemma runSelected_unfold config tts tests ov summary :
  tts ≠ [] →
  getTestsToTrigger w tts = inr (tests, ov, summary) →
  runSelected hasTestSucceeded cmd w config tts
  = match openTunnel cmd w config (map public_id tests) ov with
    | (tr1, inl e) => (GetTestsToTrigger tts :: tr1, inl e)
    | (tr1, inr (inl code)) => (GetTestsToTrigger tts :: tr1, inr code)
    | (tr1, inr (inr (tunnel_, ov'))) =>
        match runTests w ov' with
        | inl e => (GetTestsToTrigger tts :: tr1 ++ [RunTests ov'], inl e)
        | inr triggers =>
            match tests with
            | [] => (GetTestsToTrigger tts :: tr1
                       ++ [RunTests ov'; Log "No test to run."], inr 0)
            | _ :: _ =>
                match results triggers with
                | None => (GetTestsToTrigger tts :: tr1 ++ [RunTests ov'],
                           inl (mkError "No result to poll."))
                | Some trs =>
                    let '(tr2, r) :=
                      pollAndReport hasTestSucceeded w config tts tests summary
                                    triggers trs tunnel_ in
                    (GetTestsToTrigger tts :: tr1 ++ RunTests ov' :: tr2, r)
                end
            end
        end
    end.
Proof.
  intros Hne Hfetch. unfold runSelected. destruct tts as [|tc tts]; [done|].
  unfold call. rewrite Hfetch. unfold mbind, eff_bind, Eff.bind. cbn.
  destruct (openTunnel _ _ _ _ _) as [tr1 [e|[code|[tunnel_ ov']]]]; cbn;
    rewrite ?app_nil_r; try reflexivity.
  destruct (runTests w ov') as [e|triggers]; cbn.
  { reflexivity. }
  destruct tests as [|t tests]; cbn.
  { reflexivity. }
  destruct (results triggers) as [trs|]; cbn.
  - destruct (pollAndReport _ _ _ _ _ _ _ _ _) as [tr2 r]. reflexivity.
  - rewrite ?app_nil_r. reflexivity.
Qed.

Lemma execute_unfold tr0 config tts :
  selectTests cmd w = (tr0, inr (config, tts)) →
  execute hasTestSucceeded cmd w
  = (tr0 ++ (runSelected hasTestSucceeded cmd w config tts).1,
     (runSelected hasTestSucceeded cmd w config tts).2).
Proof.
  intros Hsel. unfold execute. rewrite Hsel.
  unfold mbind, eff_bind, Eff.bind.
  destruct (runSelected _ _ _ _ _) as [tr r]. reflexivity.
Qed.

Lemma forallb_not_blockingFailure rs tests :
  forallb (fun t => negb (blockingFailure hasTestSucceeded rs t)) tests = true
  ↔ ∀ t, t ∈ tests → success hasTestSucceeded rs t = false → isNonBlocking t = true.
Proof.
  rewrite forallb_forall. unfold blockingFailure.
  split; intros H t Ht.
  - intros Hs. apply list_elem_of_In, H in Ht. rewrite Hs in Ht. cbn in Ht.
    by destruct (isNonBlocking t).
  - apply list_elem_of_In in Ht. specialize (H t Ht).
    destruct (success hasTestSucceeded rs t); [done|]. by rewrite H.
Qed.

(** C4: once tests are selected and fetched, a run that reaches the
    evaluation exits with 0 exactly when no blocking test failed; a
    failing test, blocking or not, adds one to the failure counter
    reported at the end; a blocking failure, a failure of the tunnel
    start and an error thrown while triggering, polling or evaluating
    give exit status 1. *)
Theorem run_exit_status tr0 config tts tests ov summary :
  selectTests cmd w = (tr0, inr (config, tts)) → tts ≠ [] →
  getTestsToTrigger w tts = inr (tests, ov, summary) → tests ≠ [] →
  let run := execute hasTestSucceeded cmd w in
  let ids := map public_id tests in
  (∀ tr1 tunnel_ ov' triggers trs rs,
      openTunnel cmd w config ids ov = (tr1, inr (inr (tunnel_, ov'))) →
      runTests w ov' = inr triggers → results triggers = Some trs →
      waitForResults w trs (pollingTimeout config) tts tunnel_ = inr rs →
      (∀ t, t ∈ tests → testEnd w t = inr tt) →
      (exitStatus (Eff.outcome run) = 0
       ↔ ∀ t, t ∈ tests → success hasTestSucceeded rs t = false → isNonBlocking t = true) ∧
      (Eff.outcome run = inr 0 ∨ Eff.outcome run = inr 1) ∧
      ∃ summary', RunEnd summary' ∈ Eff.trace run ∧
                  summary_failed summary' = summary_failed summary + failures hasTestSucceeded rs tests) ∧
  (∀ url e,
      tunnelRequested cmd config = true → getPresignedURL w ids = inr url →
      tunnelStart w (mkTunnel url ids) = inl e →
      Eff.outcome run = inr 1) ∧
  (∀ tr1 tunnel_ ov' e,
      openTunnel cmd w config ids ov = (tr1, inr (inr (tunnel_, ov'))) →
      runTests w ov' = inl e →
      Eff.outcome run = inl e ∧ exitStatus (Eff.outcome run) = 1) ∧
  (∀ tr1 tunnel_ ov' triggers,
      openTunnel cmd w config ids ov = (tr1, inr (inr (tunnel_, ov'))) →
      runTests w ov' = inr triggers → results triggers = None →
      exitStatus (Eff.outcome run) = 1) ∧
  (∀ tr1 tunnel_ ov' triggers trs,
      openTunnel cmd w config ids ov = (tr1, inr (inr (tunnel_, ov'))) →
      runTests w ov' = inr triggers → results triggers = Some trs →
      (∀ e, waitForResults w trs (pollingTimeout config) tts tunnel_ = inl e →
            Eff.outcome run = inr 1) ∧
      (∀ rs e t, waitForResults w trs (pollingTimeout config) tts tunnel_ = inr rs →
                 t ∈ tests → testEnd w t = inl e →
                 Eff.outcome run = inr 1)).
Proof.
  intros Hsel Htts Hfetch Htests. cbn zeta.
  rewrite (execute_unfold _ _ _ Hsel), (runSelected_unfold _ _ _ _ _ Htts Hfetch).
  unfold Eff.outcome, Eff.trace. cbn [fst snd].
  split; [|split; [|split; [|split]]].
  - intros tr1 tunnel_ ov' triggers trs rs -> -> Hres Hwait Hend.
    destruct tests as [|t0 tests']; [done|]. rewrite Hres.
    rewrite pollAndReport_unfold, Hwait.
    set (sorted := sort _ _).
    assert (Hperm : sorted ≡ₚ t0 :: tests') by apply sort_Permutation.
    pose proof (reportTests_spec rs (locationNamesOf triggers) sorted summary true)
      as [Hspec _].
    destruct (reportTests _ _ _ _ _ _ _) as [tr [e|[summary' hs]]]; cbn.
    { exfalso. apply Exists_exists in Hspec as (t & Ht & He).
      rewrite Hperm in Ht. rewrite (Hend t Ht) in He. discriminate. }
    destruct Hspec as (_ & Hfailed & Hhs). cbn in Hhs.
    rewrite (forallb_Permutation _ _ _ Hperm) in Hhs.
    rewrite (failures_Permutation _ _ _ Hperm) in Hfailed.
    split; [|split].
    + rewrite <- forallb_not_blockingFailure, <- Hhs. by destruct hs.
    + destruct hs; auto.
    + exists summary'. split; [|done].
      rewrite !elem_of_app, !elem_of_cons, !elem_of_app, !elem_of_cons.
      do 6 right. apply elem_of_app. right. apply list_elem_of_here.
  - intros url e Hreq Hurl Hstart.
    rewrite openTunnel_unfold, Hreq, Hurl, Hstart. reflexivity.
  - intros tr1 tunnel_ ov' e -> ->. done.
  - intros tr1 tunnel_ ov' triggers -> -> Hres.
    destruct tests; [done|]. by rewrite Hres.
  - intros tr1 tunnel_ ov' triggers trs -> -> Hres.
    destruct tests as [|t0 tests']; [done|]. rewrite Hres.
    rewrite pollAndReport_unfold. split.
    + intros e ->. reflexivity.
    + intros rs e t -> Ht Hend.
      set (sorted := sort _ _).
      assert (Hperm : sorted ≡ₚ t0 :: tests') by apply sort_Permutation.
      pose proof (reportTests_spec rs (locationNamesOf triggers) sorted summary true)
        as [Hspec _].
      destruct (reportTests _ _ _ _ _ _ _) as [tr [e'|[summary' hs]]]; cbn; [done|].
      destruct Hspec as (Hall & _). rewrite Forall_forall in Hall.
      rewrite <- Hperm in Ht. rewrite (Hall t Ht) in Hend. discriminate.
Qed.

Lemma count_app p tr1 tr2 : count p (tr1 ++ tr2) = (count p tr1 + count p tr2)%nat.
Proof. unfold count. by rewrite List.filter_app, length_app. Qed.

Lemma count_cons p ev tr :
  count p (ev :: tr) = ((if p ev then 1 else 0) + count p tr)%nat.
Proof. unfold count. cbn. by destruct (p ev). Qed.

Lemma count_none p tr : Forall (fun ev => p ev = false) tr → count p tr = 0%nat.
Proof.
  unfold count. induction 1 as [|ev tr Hev _ IH]; cbn; [done|]. by rewrite Hev.
Qed.

(** The polling block stops the tunnel once, whatever happens in it. *)
Lemma pollAndReport_stops_tunnel config tts tests summary triggers trs tunnel_ :
  count isTunnelStop
    (Eff.trace (pollAndReport hasTestSucceeded w config tts tests summary
                              triggers trs tunnel_))
  = length (stopEvents tunnel_).
Proof.
  rewrite pollAndReport_unfold. unfold Eff.trace.
  destruct (waitForResults _ _ _ _ _) as [e|rs]; cbn [fst].
  { destruct tunnel_; reflexivity. }
  pose proof (reportTests_spec rs (locationNamesOf triggers)
                (sort (sortTestsByOutcome hasTestSucceeded rs) tests) summary true)
    as [_ Htr].
  destruct (reportTests _ _ _ _ _ _ _) as [tr [e|[summary' hs]]]; cbn [fst] in *.
  all: change (?a :: ?b :: tr ++ ?c :: ?d) with ([a; b] ++ tr ++ [c] ++ d);
    rewrite !count_app, (count_none isTunnelStop tr);
    [ destruct tunnel_; reflexivity
    | eapply Forall_impl; [exact Htr|]; by intros [] ].
Qed.

Lemma forM_call_trace {A B} (P : Event → Prop) (ev : A → Event)
    (answer : A → Error + B) l :
  (∀ x, P (ev x)) →
  Forall P (Eff.trace (forM (fun x => call (ev x) (answer x)) l)).
Proof.
  intros HP. unfold Eff.trace. induction l as [|x l IH]; cbn; [constructor|].
  unfold call, mbind, eff_bind, Eff.bind in *.
  destruct (answer x) as [e|y]; cbn; [by repeat constructor|].
  destruct (forM _ l) as [tr [e|ys]]; cbn in *.
  - by constructor.
  - rewrite app_nil_r. by constructor.
Qed.

(** Selecting the tests triggers nothing. *)
Lemma selectTests_no_trigger :
  Forall (fun ev => isRunTests ev = false) (Eff.trace (selectTests cmd w)).
Proof.
  unfold selectTests, Eff.trace, mbind, eff_bind, Eff.bind.
  destruct (parseConfigFile w) as [e|config0]; cbn; [constructor|].
  unfold getApiHelper.
  destruct (negb _ || negb _); cbn.
  { destruct (negb (truthy (if truthy (appKey cmd) then _ else _)));
      destruct (negb (truthy (if truthy (apiKey cmd) then _ else _)));
      cbn; by repeat constructor. }
  destruct (publicIds cmd) as [|i ids]; cbn; [|constructor].
  unfold getTestsList.
  destruct (truthy (testSearchQuery cmd)); cbn.
  - unfold call. destruct (searchTests w _); cbn; by repeat constructor.
  - match goal with
    | |- context [forM ?f ?l] =>
        pose proof (forM_call_trace (fun ev => isRunTests ev = false)
                      GetSuites (getSuites w) l (fun _ => eq_refl)) as Htr;
        unfold Eff.trace in Htr; destruct (forM f l) as [tr [e|found]]
    end; cbn in *; rewrite ?app_nil_r; done.
Qed.

Lemma openTunnel_no_trigger config ids ov :
  count isRunTests (Eff.trace (openTunnel cmd w config ids ov)) = 0%nat.
Proof.
  rewrite openTunnel_unfold. destruct (tunnelRequested cmd config); [|reflexivity].
  destruct (getPresignedURL w ids); [reflexivity|].
  destruct (tunnelStart w _); reflexivity.
Qed.

(** C5, as amended: when nothing is selected (no public id given and
    none discovered) the run logs "No test suites to run.", returns 0
    and calls [runTests] not at all; when every selected test is skipped
    or missing, and the tunnel block and [runTests] come through, the
    run logs "No test to run." and returns 0, [runTests] having been
    called once before. *)
Theorem nothing_to_run tr0 config tts :
  selectTests cmd w = (tr0, inr (config, tts)) →
  let run := execute hasTestSucceeded cmd w in
  (tts = [] →
   Eff.outcome run = inr 0 ∧
   last (Eff.trace run) = Some (Log "No test suites to run.") ∧
   count isRunTests (Eff.trace run) = 0%nat) ∧
  (∀ ov summary tr1 tunnel_ ov' triggers,
      tts ≠ [] → getTestsToTrigger w tts = inr ([], ov, summary) →
      openTunnel cmd w config [] ov = (tr1, inr (inr (tunnel_, ov'))) →
      runTests w ov' = inr triggers →
      Eff.outcome run = inr 0 ∧
      last (Eff.trace run) = Some (Log "No test to run.") ∧
      count isRunTests (Eff.trace run) = 1%nat ∧
      RunTests ov' ∈ Eff.trace run).
Proof.
  intros Hsel. cbn zeta. rewrite (execute_unfold _ _ _ Hsel).
  assert (Htr0 : count isRunTests tr0 = 0%nat).
  { apply count_none. pose proof selectTests_no_trigger as H.
    by rewrite Hsel in H. }
  unfold Eff.outcome, Eff.trace. cbn [fst snd]. split.
  - intros ->. cbn. split; [done|]. split.
    + by rewrite last_snoc.
    + by rewrite count_app, Htr0.
  - intros ov summary tr1 tunnel_ ov' triggers Htts Hfetch Hopen Hrun.
    rewrite (runSelected_unfold _ _ _ _ _ Htts Hfetch). cbn [map].
    pose proof (openTunnel_no_trigger config [] ov) as Htr1.
    rewrite Hopen in *. rewrite Hrun. cbn [fst snd] in *.
    unfold Eff.trace in Htr1. cbn [fst] in Htr1.
    split; [done|]. split; [|split].
    + rewrite last_app, last_cons, last_app. reflexivity.
    + by rewrite count_app, count_cons, count_app, Htr0, Htr1.
    + rewrite elem_of_app, elem_of_cons, elem_of_app, !elem_of_cons. auto.
Qed.

End Run.

(** *** The claims on examples *)

Lemma sortTestsByOutcome_rule_witness :
  sortTestsByOutcome hasTestSucceeded_ex results_ex test_C test_A = -1 ∧
  sortTestsByOutcome hasTestSucceeded_ex results_ex test_B test_A = -1 ∧
  sort (sortTestsByOutcome hasTestSucceeded_ex results_ex) [test_A; test_B; test_C]
  = [test_B; test_C; test_A].
Proof.
  split; [|split].
  - destruct (sortTestsByOutcome_rule hasTestSucceeded_ex results_ex test_C test_A)
      as (_ & _ & Hclass & _ & _).
    apply Hclass; reflexivity.
  - destruct (sortTestsByOutcome_rule hasTestSucceeded_ex results_ex test_B test_A)
      as (_ & _ & _ & Hsuccess & _).
    apply Hsuccess; reflexivity.
  - destruct (sortTestsByOutcome_rule hasTestSucceeded_ex results_ex test_A test_B)
      as (_ & _ & _ & _ & Hsort).
    apply Hsort; reflexivity.
Defined.

(** C3, as stated, fails: with global [{headers: {a: 1}}] and per-test
    [{headers: {b: 2}}] the effective headers are [{b: 2}], not
    [{a: 1, b: 2}]. *)
Lemma suite_test_headers_replaced :
  ∃ tc, Eff.outcome (getTestsList cmd_ex w_ex config_ex) = inr [tc] ∧
        config tc !! "headers"%string = Some headers_b ∧
        config tc !! "headers"%string ≠ Some headers_ab.
Proof.
  eexists. split; [reflexivity|]. split; [reflexivity|].
  cbn. intros [=].
Qed.

Lemma suite_test_config_witness :
  ∃ glob found s tests t,
    glob ∈ [files config_ex] ∧ getSuites w_ex glob = inr found ∧ s ∈ found ∧
    content_tests s = Some tests ∧ t ∈ tests ∧
    suite tc_ex = suite_name s ∧ id tc_ex = test_id t ∧
    ∀ key, config tc_ex !! key
           = match test_config t ≫= (fun c => c !! key) with
             | Some v => Some v
             | None => global config_ex !! key
             end.
Proof.
  apply (suite_test_config cmd_ex w_ex config_ex tts_ex).
  - reflexivity.
  - reflexivity.
  - unfold tts_ex. apply list_elem_of_here.
Defined.

(** C5, as stated, fails: with the one selected test skipped and the
    tunnel requested but failing to start, the run returns 1; and with
    the test skipped and no tunnel, [runTests] is called before the
    notice. *)
Lemma all_skipped_not_quiet :
  getTestsToTrigger w_skipped_no_tunnel tts_cli
    = inr ([], [payload_ex "aaa-aaa-aaa"], summary_skipped) ∧
  Eff.outcome (execute hasTestSucceeded_ex cmd_tunnel w_skipped_no_tunnel) ≠ inr 0 ∧
  getTestsToTrigger w_skipped tts_ex
    = inr ([], [payload_ex "aaa-aaa-aaa"], summary_skipped) ∧
  count isRunTests (Eff.trace (execute hasTestSucceeded_ex cmd_ex w_skipped)) ≠ 0%nat.
Proof.
  split; [reflexivity|]. split; [|split; [reflexivity|]].
  - assert (H : Eff.outcome (execute hasTestSucceeded_ex cmd_tunnel w_skipped_no_tunnel)
                = inr 1) by (vm_compute; reflexivity).
    rewrite H. discriminate.
  - assert (H : count isRunTests (Eff.trace (execute hasTestSucceeded_ex cmd_ex w_skipped))
                = 1%nat) by (vm_compute; reflexivity).
    rewrite H. discriminate.
Qed.

Lemma nothing_to_run_witness :
  (Eff.outcome (execute hasTestSucceeded_ex cmd_ex w_none) = inr 0 ∧
   last (Eff.trace (execute hasTestSucceeded_ex cmd_ex w_none))
     = Some (Log "No test suites to run.") ∧
   count isRunTests (Eff.trace (execute hasTestSucceeded_ex cmd_ex w_none)) = 0%nat) ∧
  (Eff.outcome (execute hasTestSucceeded_ex cmd_ex w_skipped) = inr 0 ∧
   last (Eff.trace (execute hasTestSucceeded_ex cmd_ex w_skipped))
     = Some (Log "No test to run.") ∧
   count isRunTests (Eff.trace (execute hasTestSucceeded_ex cmd_ex w_skipped)) = 1%nat ∧
   RunTests [payload_ex "aaa-aaa-aaa"]
     ∈ Eff.trace (execute hasTestSucceeded_ex cmd_ex w_skipped)).
Proof.
  split.
  - destruct (nothing_to_run hasTestSucceeded_ex cmd_ex w_none
                [GetSuites (files config_ex)] config_ex [] eq_refl) as [Hnone _].
    apply Hnone. reflexivity.
  - destruct (nothing_to_run hasTestSucceeded_ex cmd_ex w_skipped
                [GetSuites (files config_ex)] config_ex tts_ex eq_refl) as [_ Hskipped].
    apply (Hskipped [payload_ex "aaa-aaa-aaa"] summary_skipped [] None
             [payload_ex "aaa-aaa-aaa"] (mkTrigger [] None)).
    + discriminate.
    + reflexivity.
    + reflexivity.
    + reflexivity.
Defined.

Lemma run_exit_status_witness :
  (exitStatus (Eff.outcome (execute hasTestSucceeded_ex cmd_ex w_ex)) = 0
   ↔ ∀ t, t ∈ tests_ex → success hasTestSucceeded_ex results_ex t = false →
          isNonBlocking t = true) ∧
  (Eff.outcome (execute hasTestSucceeded_ex cmd_ex w_ex) = inr 0 ∨
   Eff.outcome (execute hasTestSucceeded_ex cmd_ex w_ex) = inr 1) ∧
  ∃ summary', RunEnd summary' ∈ Eff.trace (execute hasTestSucceeded_ex cmd_ex w_ex) ∧
              summary_failed summary'
              = summary_failed summary_0 + failures hasTestSucceeded_ex results_ex tests_ex.
Proof.
  destruct (run_exit_status hasTestSucceeded_ex cmd_ex w_ex
              [GetSuites (files config_ex)] config_ex tts_ex tests_ex payloads_ex
              summary_0) as (Heval & _).
  - reflexivity.
  - discriminate.
  - reflexivity.
  - discriminate.
  - apply (Heval [] None payloads_ex triggers_ex
             [triggerResult_ex "aaa-aaa-aaa" "1"; triggerResult_ex "bbb-bbb-bbb" "2";
              triggerResult_ex "ccc-ccc-ccc" "3"] results_ex).
    + reflexivity.
    + reflexivity.
    + reflexivity.
    + reflexivity.
    + intros t _. reflexivity.
Defined.

(** C1 fails on the code: the tunnel is stopped only by the [finally] of
    the polling block.  With the tunnel started, a failing trigger request
    and a trigger answer without results make [execute] throw with the
    tunnel never stopped, and a failing [tunnel.start()] makes it return 1
    with the tunnel never stopped; a run that reaches the polling block
    stops it once. *)
Theorem tunnel_left_open :
  (count isTunnelStart (Eff.trace (execute hasTestSucceeded_ex cmd_tunnel w_trigger_fails))
     = 1%nat ∧
   count isTunnelStop (Eff.trace (execute hasTestSucceeded_ex cmd_tunnel w_trigger_fails))
     = 0%nat ∧
   Eff.outcome (execute hasTestSucceeded_ex cmd_tunnel w_trigger_fails)
     = inl (mkError "Failed to trigger tests")) ∧
  (count isTunnelStart (Eff.trace (execute hasTestSucceeded_ex cmd_tunnel w_no_results))
     = 1%nat ∧
   count isTunnelStop (Eff.trace (execute hasTestSucceeded_ex cmd_tunnel w_no_results))
     = 0%nat ∧
   Eff.outcome (execute hasTestSucceeded_ex cmd_tunnel w_no_results)
     = inl (mkError "No result to poll.")) ∧
  (count isTunnelStart (Eff.trace (execute hasTestSucceeded_ex cmd_tunnel w_no_tunnel))
     = 1%nat ∧
   count isTunnelStop (Eff.trace (execute hasTestSucceeded_ex cmd_tunnel w_no_tunnel))
     = 0%nat ∧
   Eff.outcome (execute hasTestSucceeded_ex cmd_tunnel w_no_tunnel) = inr 1) ∧
  (count isTunnelStart (Eff.trace (execute hasTestSucceeded_ex cmd_tunnel w_ex)) = 1%nat ∧
   count isTunnelStop (Eff.trace (execute hasTestSucceeded_ex cmd_tunnel w_ex)) = 1%nat).
Proof. repeat split; vm_compute; reflexivity. Qed.

End RunTestFacts.

(** ** The helpers of [./utils] *)

Module UtilsFacts.
Import Interfaces Utils.
Import RunTestExamples (pollResult_ex, triggerResult_ex, pollResults_ex, triggerResults_ex).

Lemma allPassed_true results :
  allPassed results = true ↔ ∀ r, r ∈ results → passed (result r) = true.
Proof.
  unfold allPassed. rewrite forallb_forall.
  split; intros H r Hr; by apply H, list_elem_of_In.
Qed.

Lemma hasTestSucceeded_cons r results :
  hasTestSucceeded (r :: results) = inr (allPassed (r :: results)).
Proof. reflexivity. Qed.

(** C6: [hasTestSucceeded] answers true exactly for a non-empty list
    whose results all passed; a list with a result that did not pass is
    answered false; the empty list is not a success. *)
Theorem hasTestSucceeded_iff (results : list PollResult) :
  (hasTestSucceeded results = inr true
   ↔ results ≠ [] ∧ ∀ r, r ∈ results → passed (result r) = true) ∧
  ((∃ r, r ∈ results ∧ passed (result r) = false) →
   hasTestSucceeded results = inr false) ∧
  (results = [] → hasTestSucceeded results ≠ inr true).
Proof.
  split; [|split].
  - destruct results as [|r0 results]; [split; [discriminate|by intros [? _]]|].
    rewrite hasTestSucceeded_cons. split.
    + intros Hall. split; [done|]. apply allPassed_true. congruence.
    + intros [_ Hall]. f_equal. by apply allPassed_true.
  - intros (r & Hr & Hfailed).
    destruct results as [|r0 results]; [by apply elem_of_nil in Hr|].
    rewrite hasTestSucceeded_cons. f_equal. apply not_true_is_false.
    rewrite allPassed_true. intros Hall. apply Hall in Hr. congruence.
  - intros ->. discriminate.
Qed.

Lemma hasTestSucceeded_iff_witness :
  hasTestSucceeded [pollResult_ex "1" true;
                    pollResult_ex "2" false] = inr false.
Proof.
  apply (hasTestSucceeded_iff [pollResult_ex "1" true;
                               pollResult_ex "2" false]).
  exists (pollResult_ex "2" false). split; [|reflexivity].
  apply list_elem_of_further, list_elem_of_here.
Defined.

(** *** The poller *)

Section Append.
Variable f : TriggerResult → PollResult.

Lemma dom_appendResult m k r : dom (appendResult m k r) = {[k]} ∪ dom m.
Proof. unfold appendResult. by rewrite dom_insert_L. Qed.

Lemma dom_appendAll l : ∀ m, dom (appendAll f m l) = publicIds l ∪ dom m.
Proof.
  unfold appendAll, publicIds.
  induction l as [|tr l IH]; intros m; cbn; [set_solver|].
  rewrite IH, dom_appendResult. set_solver.
Qed.

Lemma appendResult_keeps m k r k' x :
  (∃ v, m !! k' = Some v ∧ x ∈ v) →
  ∃ v, appendResult m k r !! k' = Some v ∧ x ∈ v.
Proof.
  intros (v & Hv & Hx). unfold appendResult.
  destruct (decide (k = k')) as [->|Hne].
  - rewrite lookup_insert_eq, Hv. cbn. eexists; split; [done|].
    apply elem_of_app. by left.
  - rewrite lookup_insert_ne by done. eauto.
Qed.

Lemma appendAll_keeps l : ∀ m k x,
  (∃ v, m !! k = Some v ∧ x ∈ v) →
  ∃ v, appendAll f m l !! k = Some v ∧ x ∈ v.
Proof.
  unfold appendAll. induction l as [|tr l IH]; intros m k x Hm; cbn; [done|].
  by apply IH, appendResult_keeps.
Qed.

Lemma appendAll_has l : ∀ m tr,
  tr ∈ l → ∃ v, appendAll f m l !! tr_public_id tr = Some v ∧ f tr ∈ v.
Proof.
  induction l as [|tr0 l IH]; intros m tr Hin; [by apply elem_of_nil in Hin|].
  apply elem_of_cons in Hin as [->|Hin].
  - cbn. apply appendAll_keeps. unfold appendResult.
    rewrite lookup_insert_eq. eexists; split; [done|].
    apply elem_of_app. right. apply list_elem_of_here.
  - cbn. by apply IH.
Qed.
End Append.

Lemma publicIds_filter (P : TriggerResult → Prop) `{∀ tr, Decision (P tr)} l :
  publicIds (filter P l) ∪ publicIds (filter (fun tr => ¬ P tr) l) = publicIds l.
Proof.
  unfold publicIds. induction l as [|tr l IH]; [set_solver|].
  rewrite !filter_cons. destruct (decide (P tr)), (decide (¬ P tr)); try done;
    rewrite ?fmap_cons, ?list_to_set_cons; set_solver.
Qed.

Lemma resolveOne_covered st r : covered (resolveOne st r) = covered st.
Proof.
  unfold resolveOne, covered. destruct (isFinished r); [|done]. cbn.
  pose proof (dom_appendAll (fun _ => r)
                (filter (fun tr => result_id tr = resultID r) (outstanding st))
                (resolved st)) as Hdom.
  rewrite Hdom.
  rewrite <- (publicIds_filter (fun tr => result_id tr = resultID r) (outstanding st)).
  set_solver.
Qed.

Lemma tick_covered answer st : covered (tick answer st) = covered st.
Proof.
  unfold tick. destruct answer as [e|returned]; [done|].
  revert st. induction returned as [|r returned IH]; intros st; cbn; [done|].
  by rewrite IH, resolveOne_covered.
Qed.

Section Poller.
Variable pollResults : nat → list string → Error + list PollResult.
Variable pollInterval : Z.

Lemma pollLoop_covered ticksLeft : ∀ n st,
  covered (pollLoop pollResults ticksLeft n st).2 = covered st.
Proof.
  induction ticksLeft as [|k IH]; intros n st; cbn;
    destruct (outstanding st) eqn:Hout; try done.
  by rewrite IH, tick_covered.
Qed.

(** C9: whether the poller ends by completion or by timeout, the keys
    of the map it returns are the public ids of the trigger results,
    and every instance still outstanding at the end has its synthetic
    timed-out, failed result in the entry of its test. *)
Theorem waitForResults_keys (triggerResults : list TriggerResult) (timeoutMs : Z) :
  dom (waitForResults pollResults pollInterval triggerResults timeoutMs)
  = list_to_set (tr_public_id <$> triggerResults) ∧
  ∀ tr, tr ∈ outstanding (poll pollResults pollInterval triggerResults timeoutMs).2 →
        ∃ l, waitForResults pollResults pollInterval triggerResults timeoutMs
               !! tr_public_id tr = Some l ∧
             timedOutResult tr ∈ l ∧
             passed (result (timedOutResult tr)) = false.
Proof.
  unfold waitForResults. split.
  - pose proof (dom_appendAll timedOutResult
                  (outstanding (poll pollResults pollInterval triggerResults timeoutMs).2)
                  (resolved (poll pollResults pollInterval triggerResults timeoutMs).2))
      as Hdom.
    rewrite Hdom.
    pose proof (pollLoop_covered (Z.to_nat (timeoutMs / pollInterval)) 1
                  {| outstanding := triggerResults; resolved := ∅ |}) as Hcov.
    unfold covered in Hcov. cbn in Hcov. rewrite dom_empty_L in Hcov.
    fold (poll pollResults pollInterval triggerResults timeoutMs) in Hcov.
    unfold publicIds in *. set_solver.
  - intros tr Htr.
    destruct (appendAll_has timedOutResult _
                (resolved (poll pollResults pollInterval triggerResults timeoutMs).2)
                tr Htr) as (l & Hl & Hin).
    exists l. done.
Qed.
End Poller.

Lemma waitForResults_keys_witness :
  dom (waitForResults pollResults_ex 5000 triggerResults_ex 10000)
  = list_to_set (tr_public_id <$> triggerResults_ex) ∧
  ∃ l, waitForResults pollResults_ex 5000 triggerResults_ex 10000
         !! "bbb-bbb-bbb"%string = Some l ∧
       timedOutResult (triggerResult_ex "bbb-bbb-bbb" "2") ∈ l ∧
       passed (result (timedOutResult (triggerResult_ex "bbb-bbb-bbb" "2"))) = false.
Proof.
  destruct (waitForResults_keys pollResults_ex 5000 triggerResults_ex 10000)
    as [Hdom Hout].
  split; [exact Hdom|].
  apply (Hout (triggerResult_ex "bbb-bbb-bbb" "2")).
  vm_compute. apply list_elem_of_here.
Defined.

End UtilsFacts.

(** ** More on the dependencies upload command *)

Module UploadMore.
Import Upload UploadExamples UploadFacts.

(** Finds an event written out in a trace built with [::] and [++]. *)
Ltac find_event :=
  solve [ apply list_elem_of_here
        | apply list_elem_of_further; find_event
        | apply elem_of_app; right; find_event
        | apply elem_of_app; left; find_event ].

Section Counting.
Variable p : Event → bool.

Lemma upload_count_app tr1 tr2 : count p (tr1 ++ tr2) = (count p tr1 + count p tr2)%nat.
Proof. unfold count. by rewrite List.filter_app, length_app. Qed.

Lemma upload_count_cons ev tr : count p (ev :: tr) = ((if p ev then 1 else 0) + count p tr)%nat.
Proof. unfold count. cbn. by destruct (p ev). Qed.

Lemma upload_count_none tr : Forall (fun ev => p ev = false) tr → count p tr = 0%nat.
Proof. unfold count. induction 1 as [|ev tr Hev _ IH]; cbn; [done|]. by rewrite Hev. Qed.
End Counting.

Section More.
Variable (cmd : Command) (w : World).

(** The events of [uploadDependencies]: those of the attempt loop and
    the lines of its [catch]. *)
Lemma uploadDependencies_events payload :
  Forall (fun ev => loopEvent w payload 1 ev ∨ ∃ r, ev = Stdout r)
         (Eff.trace (uploadDependencies cmd w payload)).
Proof.
  rewrite uploadDependencies_unfold. unfold retry, Eff.trace.
  pose proof (retry_from_inv cmd w payload 5 1 []) as (_ & Hall & _).
  destruct (retry_from _ _ _ _ _) as [tr [e|u]]; cbn [fst] in *.
  - apply Forall_app. split.
    + eapply Forall_impl; [exact Hall|]. auto.
    + apply List.Forall_cons; [right; eauto|].
      apply List.Forall_cons; [left; exact I|]. apply List.Forall_nil.
  - eapply Forall_impl; [exact Hall|]. auto.
Qed.

Lemma uploadDependencies_no_flush payload :
  count isFlush (Eff.trace (uploadDependencies cmd w payload)) = 0%nat.
Proof.
  apply upload_count_none. eapply Forall_impl; [apply uploadDependencies_events|].
  intros ev [Hev|[out ->]]; [|done]. by destruct ev.
Qed.

(** The error a retry operation gives up with is one it recorded. *)
Lemma mainError_from_elem errors : ∀ counts main mainCount e,
  mainError_from errors counts main mainCount = Some e → main = Some e ∨ e ∈ errors.
Proof.
  induction errors as [|error rest IH]; intros counts main mainCount e; cbn; [auto|].
  destruct (_ <=? _)%nat; intros [Hm|Hin]%IH.
  - right. injection Hm as ->. apply list_elem_of_here.
  - right. by apply list_elem_of_further.
  - by left.
  - right. by apply list_elem_of_further.
Qed.

Lemma mainError_default_elem errors err :
  default err (mainError (errors ++ [err])) ∈ errors ++ [err].
Proof.
  unfold mainError.
  destruct (mainError_from _ _ _ _) as [e|] eqn:He; cbn.
  - apply mainError_from_elem in He as [?|?]; done.
  - apply elem_of_app. right. apply list_elem_of_here.
Qed.

Hypothesis Hdry : dryRun cmd = false.

(** In the attempt loop every request but the first follows one call of
    [onRetry]; the success metric is incremented when the loop resolves,
    and only then. *)
Lemma retry_from_counts payload t : ∀ num errs,
  let m := retry_from (attempt cmd w payload) onRetry t num errs in
  length (uploads m.1) = S (count (isIncrement "retries") m.1) ∧
  count (isIncrement "success") m.1 = (if m.2 is inr _ then 1 else 0)%nat ∧
  count (isIncrement "failed") m.1 = 0%nat.
Proof.
  induction t as [|t IH]; intros num errs; cbn zeta;
    cbn [retry_from]; rewrite attempt_unfold, Hdry.
  all: destruct (uploadDependenciesApi w num) as [e|[]];
    [destruct (retryable e)|]; try (cbn; done).
  specialize (IH (S num) (errs ++ [e])). cbn zeta in IH.
  cbn. unfold mbind, eff_bind, Eff.bind. cbn.
  destruct (retry_from _ _ t (S num) (errs ++ [e])) as [tr r].
  unfold count, uploads in *. cbn in *.
  destruct IH as (Hup & Hok & Hfailed). rewrite Hup, Hok, Hfailed. done.
Qed.

(** The loop resolves at the first accepted request, when the earlier
    ones failed with retryable errors and a retry was left for each. *)
Lemma retry_from_succeeds payload d : ∀ t num errs,
  (d ≤ t)%nat →
  (∀ i, (num ≤ i < num + d)%nat →
        ∃ e, uploadDependenciesApi w i = inl e ∧ retryable e = true) →
  uploadDependenciesApi w (num + d) = inr tt →
  let m := retry_from (attempt cmd w payload) onRetry t num errs in
  m.2 = inr tt ∧ length (uploads m.1) = S d.
Proof.
  induction d as [|d IH]; intros t num errs Hle Hfail Hok; cbn zeta.
  - rewrite Nat.add_0_r in Hok.
    destruct t; cbn [retry_from]; rewrite attempt_unfold, Hdry, Hok; done.
  - destruct t as [|t]; [lia|].
    cbn [retry_from]. rewrite attempt_unfold, Hdry.
    destruct (Hfail num) as (e & -> & ->); [lia|].
    cbn. unfold mbind, eff_bind, Eff.bind. cbn.
    specialize (IH t (S num) (errs ++ [e])). cbn zeta in IH.
    destruct (retry_from _ _ t (S num) (errs ++ [e])) as [tr r]. cbn in *.
    destruct IH as [-> Hlen].
    + lia.
    + intros i Hi. apply Hfail. lia.
    + by replace (S (num + d)) with (num + S d)%nat by lia.
    + unfold uploads in *. by rewrite Hlen.
Qed.

(** The loop gives up after the first attempt and all its retries failed
    with retryable errors, with one of the errors it met. *)
Lemma retry_from_exhausts payload t : ∀ num errs,
  (∀ i, (num ≤ i ≤ num + t)%nat →
        ∃ e, uploadDependenciesApi w i = inl e ∧ retryable e = true) →
  let m := retry_from (attempt cmd w payload) onRetry t num errs in
  length (uploads m.1) = S t ∧
  ∃ e, m.2 = inl e ∧
       (e ∈ errs ∨ ∃ i, (num ≤ i ≤ num + t)%nat ∧ uploadDependenciesApi w i = inl e).
Proof.
  induction t as [|t IH]; intros num errs Hfail; cbn zeta;
    cbn [retry_from]; rewrite attempt_unfold, Hdry;
    destruct (Hfail num) as (e & Hnum & Hre); try lia; rewrite Hnum, Hre.
  - cbn. split; [done|]. eexists. split; [done|].
    pose proof (mainError_default_elem errs e) as [Hin|Hin%list_elem_of_singleton]%elem_of_app.
    + by left.
    + right. exists num. rewrite Hin. split; [lia|done].
  - cbn. unfold mbind, eff_bind, Eff.bind. cbn.
    specialize (IH (S num) (errs ++ [e])). cbn zeta in IH.
    destruct (retry_from _ _ t (S num) (errs ++ [e])) as [tr r]. cbn in *.
    destruct IH as (Hlen & e' & -> & Hsrc).
    { intros i Hi. apply Hfail. lia. }
    split; [unfold uploads in *; by rewrite Hlen|].
    exists e'. split; [done|].
    destruct Hsrc as [[Hin|Hin%list_elem_of_singleton]%elem_of_app|(i & Hi & Hapi)].
    + by left.
    + right. exists num. subst e'. split; [lia|done].
    + right. exists i. split; [lia|done].
Qed.

Lemma retryable_not_forbidden e : retryable e = true → forbidden e = false.
Proof.
  unfold retryable, forbidden. destruct (response e) as [status|]; [|done].
  intros Hre. apply bool_decide_eq_false_2. intros ->. done.
Qed.

(** Past the validation and the file check, the metric increments and the
    upload requests of [execute] are those of [uploadDependencies]. *)
Lemma execute_count_increment metric :
  invalidInput cmd = false → existsSync w = true →
  count (isIncrement metric) (Eff.trace (execute cmd w))
  = count (isIncrement metric) (Eff.trace (uploadDependencies cmd w (payload cmd))).
Proof.
  intros Hv Hf. rewrite (execute_upload cmd w Hv Hf). unfold Eff.trace.
  assert (Hpre : count (isIncrement metric) (preamble cmd) = 0%nat).
  { unfold preamble. by destruct (truthy _). }
  assert (Hfl : count (isIncrement metric) (flushed w) = 0%nat).
  { unfold flushed. by destruct (flush w). }
  destruct (uploadDependencies cmd w (payload cmd)) as [tr [e|u]]; cbn [fst];
    rewrite upload_count_app, upload_count_cons, !upload_count_app, Hpre, Hfl; cbn; lia.
Qed.

Lemma uploadDependencies_counts :
  let m := uploadDependencies cmd w (payload cmd) in
  length (uploads m.1) = S (count (isIncrement "retries") m.1) ∧
  count (isIncrement "success") m.1 = (if m.2 is inr _ then 1 else 0)%nat ∧
  count (isIncrement "failed") m.1 = (if m.2 is inr _ then 0 else 1)%nat.
Proof.
  cbn zeta. rewrite uploadDependencies_unfold. unfold retry.
  pose proof (retry_from_counts (payload cmd) 5 1 []) as (Hup & Hok & Hfailed).
  destruct (retry_from _ _ _ _ _) as [tr [e|u]]; cbn [fst snd] in *; [|done].
  rewrite uploads_app, length_app, !upload_count_app, Hup, Hok, Hfailed.
  destruct (forbidden e); cbn; lia.
Qed.

End More.

(** X1: [execute] never throws.  It returns 1 on invalid input, 2 when
    the file is missing, 3 when the upload failed and nothing
    ([undefined]) when it succeeded, also when the metrics flush fails. *)
Theorem execute_never_throws (cmd : Command) (w : World) :
  Eff.outcome (execute cmd w)
  = inr (if invalidInput cmd then Some INVALID_INPUT_EXIT_CODE
         else if negb (existsSync w) then Some MISSING_FILE_EXIT_CODE
         else match Eff.outcome (uploadDependencies cmd w (payload cmd)) with
              | inr _ => None
              | inl _ => Some UPLOAD_ERROR_EXIT_CODE
              end).
Proof.
  destruct (invalidInput cmd) eqn:Hv.
  { destruct (execute_invalid cmd w Hv) as [r ->]. reflexivity. }
  destruct (existsSync w) eqn:Hf; cbn [negb].
  - rewrite (execute_upload cmd w Hv Hf). unfold Eff.outcome.
    by destruct (uploadDependencies cmd w (payload cmd)) as [tr [e|u]].
  - by rewrite (execute_missing_file cmd w Hv Hf).
Qed.

(** X2: the metrics are flushed exactly once in a run that passes the
    validation and finds the file, whether the upload succeeds or not, and
    never in another run; a failing flush is reported by a warning on the
    standard output. *)
Theorem metrics_flushed_once (cmd : Command) (w : World) :
  count isFlush (Eff.trace (execute cmd w))
  = (if invalidInput cmd || negb (existsSync w) then 0 else 1)%nat ∧
  (∀ err, invalidInput cmd = false → existsSync w = true → flush w = inl err →
          last (Eff.trace (execute cmd w)) = Some (Stdout (warnLine (message err)))).
Proof.
  destruct (invalidInput cmd) eqn:Hv; cbn [orb].
  { destruct (execute_invalid cmd w Hv) as [r ->]. split; [reflexivity|done]. }
  destruct (existsSync w) eqn:Hf; cbn [negb].
  - rewrite (execute_upload cmd w Hv Hf).
    pose proof (uploadDependencies_no_flush cmd w (payload cmd)) as Hup.
    unfold Eff.trace in *.
    assert (Hpre : count isFlush (preamble cmd) = 0%nat).
    { unfold preamble. by destruct (truthy _). }
    assert (Hfl : count isFlush (flushed w) = 1%nat).
    { unfold flushed. by destruct (flush w). }
    destruct (uploadDependencies cmd w (payload cmd)) as [tr [e|u]]; cbn [fst] in *.
    + split.
      * by rewrite upload_count_app, upload_count_cons, !upload_count_app, Hpre, Hup, Hfl.
      * intros err _ _ Herr. unfold flushed. rewrite Herr.
        rewrite last_app, last_cons, last_app, last_app. reflexivity.
    + split.
      * by rewrite upload_count_app, upload_count_cons, !upload_count_app, Hpre, Hup, Hfl.
      * intros err _ _ Herr. unfold flushed. rewrite Herr.
        rewrite last_app, last_cons, last_app, last_app. reflexivity.
  - rewrite (execute_missing_file cmd w Hv Hf). unfold Eff.trace, preamble.
    split; [|done]. cbn [fst]. rewrite upload_count_app. by destruct (truthy _).
Qed.

Lemma metrics_flushed_once_witness :
  count isFlush (Eff.trace (execute cmd_ok w_third_time)) = 1%nat ∧
  last (Eff.trace (execute cmd_ok w_third_time))
  = Some (Stdout (warnLine "flush timed out")).
Proof.
  destruct (metrics_flushed_once cmd_ok w_third_time) as [Hcount Hwarn].
  split; [exact Hcount|].
  apply (Hwarn (mkError "flush timed out" None)); reflexivity.
Defined.

(** X3: without --dry-run, a run past the validation and the file check
    sends one request more than it counts retries, and increments exactly
    one of the metrics "success" and "failed", once: "success" when it
    returns no error code, "failed" otherwise. *)
Theorem upload_metrics (cmd : Command) (w : World) :
  dryRun cmd = false → invalidInput cmd = false → existsSync w = true →
  let tr := Eff.trace (execute cmd w) in
  length (uploads tr) = S (count (isIncrement "retries") tr) ∧
  (count (isIncrement "success") tr + count (isIncrement "failed") tr = 1)%nat ∧
  (count (isIncrement "success") tr = 1%nat ↔ Eff.outcome (execute cmd w) = inr None).
Proof.
  intros Hdry Hv Hf. cbn zeta.
  rewrite !(execute_count_increment cmd w _ Hv Hf).
  pose proof (uploadDependencies_counts cmd w Hdry) as (Hup & Hok & Hfailed).
  cbn zeta in *.
  change ((uploadDependencies cmd w (payload cmd)).1)
    with (Eff.trace (uploadDependencies cmd w (payload cmd))) in Hup, Hok, Hfailed.
  rewrite Hok, Hfailed. split; [|split].
  - rewrite <- Hup. rewrite execute_trace_uploads, Hv, Hf. cbn [orb negb].
    rewrite uploadDependencies_unfold. unfold Eff.trace.
    destruct (retry _ _ _) as [tr [e|u]]; cbn [fst]; [|done].
    rewrite uploads_app. cbn. by rewrite app_nil_r.
  - by destruct (uploadDependencies _ _ _).2.
  - rewrite (execute_upload cmd w Hv Hf). unfold Eff.outcome.
    by destruct (uploadDependencies cmd w (payload cmd)) as [tr [e|u]].
Qed.

Lemma upload_metrics_witness :
  length (uploads (Eff.trace (execute cmd_ok w_third_time))) = 3%nat ∧
  count (isIncrement "retries") (Eff.trace (execute cmd_ok w_third_time)) = 2%nat ∧
  count (isIncrement "success") (Eff.trace (execute cmd_ok w_third_time)) = 1%nat.
Proof.
  destruct (upload_metrics cmd_ok w_third_time) as (Hup & _ & Hok);
    [reflexivity|reflexivity|reflexivity|].
  assert (Hcount : count (isIncrement "retries") (Eff.trace (execute cmd_ok w_third_time))
                   = 2%nat) by reflexivity.
  split; [|split].
  - rewrite Hup, Hcount. reflexivity.
  - exact Hcount.
  - apply Hok. reflexivity.
Defined.

(** X4: without --dry-run, when the first [d] requests (at most 5) fail
    with retryable errors and the next one is accepted, the run sends
    exactly [d + 1] requests, prints the success message and returns no
    error code. *)
Theorem upload_succeeds_after_retries (cmd : Command) (w : World) (d : nat) :
  dryRun cmd = false → invalidInput cmd = false → existsSync w = true →
  (d ≤ 5)%nat →
  (∀ i, (1 ≤ i ≤ d)%nat →
        ∃ e, uploadDependenciesApi w i = inl e ∧ retryable e = true) →
  uploadDependenciesApi w (S d) = inr tt →
  length (uploads (Eff.trace (execute cmd w))) = S d ∧
  Stdout renderSuccessfulCommand ∈ Eff.trace (execute cmd w) ∧
  Eff.outcome (execute cmd w) = inr None.
Proof.
  intros Hdry Hv Hf Hd Hfail Hok.
  destruct (retry_from_succeeds cmd w Hdry (payload cmd) d 5 1 []) as [Hres Hlen];
    [done| intros i Hi; apply Hfail; lia | done |].
  fold (retry (attempt cmd w (payload cmd)) onRetry 5) in Hres, Hlen.
  rewrite execute_trace_uploads, Hv, Hf. cbn [orb negb].
  rewrite (execute_upload cmd w Hv Hf), uploadDependencies_unfold.
  unfold Eff.trace, Eff.outcome.
  destruct (retry _ _ _) as [tr r]. cbn [fst snd] in *. subst r. cbn [fst snd].
  split; [done|]. split; [|done]. find_event.
Qed.

Lemma upload_succeeds_after_retries_witness :
  length (uploads (Eff.trace (execute cmd_ok w_third_time))) = 3%nat ∧
  Stdout renderSuccessfulCommand ∈ Eff.trace (execute cmd_ok w_third_time) ∧
  Eff.outcome (execute cmd_ok w_third_time) = inr None.
Proof.
  apply (upload_succeeds_after_retries cmd_ok w_third_time 2); try reflexivity.
  - lia.
  - intros i Hi. exists (mkError "Bad Gateway" (Some 502)).
    destruct i as [|[|[|i]]]; try lia; split; reflexivity.
Defined.

(** X5: without --dry-run, when the first request and the five retries
    all fail with retryable errors, the run sends exactly 6 requests,
    returns the upload-error code and reports, with the generic failure
    message, one of the six errors it received. *)
Theorem upload_gives_up (cmd : Command) (w : World) :
  dryRun cmd = false → invalidInput cmd = false → existsSync w = true →
  (∀ i, (1 ≤ i ≤ 6)%nat →
        ∃ e, uploadDependenciesApi w i = inl e ∧ retryable e = true) →
  length (uploads (Eff.trace (execute cmd w))) = 6%nat ∧
  Eff.outcome (execute cmd w) = inr (Some UPLOAD_ERROR_EXIT_CODE) ∧
  ∃ i e, (1 ≤ i ≤ 6)%nat ∧ uploadDependenciesApi w i = inl e ∧
         Stdout (renderFailedUpload (message e)) ∈ Eff.trace (execute cmd w) ∧
         Stderr (errorLine (message e)) ∈ Eff.trace (execute cmd w).
Proof.
  intros Hdry Hv Hf Hfail.
  destruct (retry_from_exhausts cmd w Hdry (payload cmd) 5 1 [])
    as (Hlen & e & Hres & Hsrc); [intros i Hi; apply Hfail; lia|].
  destruct Hsrc as [Hnil|(i & Hi & Hapi)]; [by apply elem_of_nil in Hnil|].
  fold (retry (attempt cmd w (payload cmd)) onRetry 5) in Hres, Hlen.
  assert (Hre : retryable e = true).
  { destruct (Hfail i) as (e' & He' & Hre); [lia|]. congruence. }
  rewrite execute_trace_uploads, Hv, Hf. cbn [orb negb].
  rewrite (execute_upload cmd w Hv Hf), uploadDependencies_unfold.
  unfold Eff.trace, Eff.outcome.
  destruct (retry _ _ _) as [tr r]. cbn [fst snd] in *. subst r. cbn [fst snd].
  rewrite (retryable_not_forbidden e Hre). cbv iota.
  split; [done|]. split; [done|]. exists i, e. split; [lia|]. split; [done|].
  split.
  - find_event.
  - find_event.
Qed.

Lemma upload_gives_up_witness :
  length (uploads (Eff.trace (execute cmd_ok w_500))) = 6%nat ∧
  Eff.outcome (execute cmd_ok w_500) = inr (Some UPLOAD_ERROR_EXIT_CODE) ∧
  ∃ i e, (1 ≤ i ≤ 6)%nat ∧ uploadDependenciesApi w_500 i = inl e ∧
         Stdout (renderFailedUpload (message e)) ∈ Eff.trace (execute cmd_ok w_500) ∧
         Stderr (errorLine (message e)) ∈ Eff.trace (execute cmd_ok w_500).
Proof.
  apply (upload_gives_up cmd_ok w_500); try reflexivity.
  intros i _. exists (mkError "Internal Server Error" (Some 500)). split; reflexivity.
Defined.

(** X6: an attempt that fails with an error that carries no HTTP response,
    or with status 400 or 413, is the last one; the run then prints the
    generic failure message for that error, never the authorization
    message, and returns the upload-error code. *)
Theorem upload_bails_on_other_errors (cmd : Command) (w : World) :
  ∀ j q e,
    ApiUploadDependencies j q ∈ Eff.trace (execute cmd w) →
    uploadDependenciesApi w j = inl e →
    response e = None ∨ response e = Some 400 ∨ response e = Some 413 →
    (∀ j' q', ApiUploadDependencies j' q' ∈ Eff.trace (execute cmd w) → (j' ≤ j)%nat) ∧
    Stdout (renderFailedUpload (message e)) ∈ Eff.trace (execute cmd w) ∧
    (∀ msg, Stdout (renderFailedUploadBecauseOf403 msg) ∉ Eff.trace (execute cmd w)) ∧
    Eff.outcome (execute cmd w) = inr (Some UPLOAD_ERROR_EXIT_CODE).
Proof.
  intros j q e Hj Hapi Hresp.
  assert (Hre : retryable e = false).
  { unfold retryable. by destruct Hresp as [->|[->| ->]]. }
  assert (Hforb : forbidden e = false).
  { unfold forbidden. by destruct Hresp as [->|[->| ->]]. }
  pose proof (retry_from_inv cmd w (payload cmd) 5 1 []) as (_ & Hall & Hbail).
  fold (retry (attempt cmd w (payload cmd)) onRetry 5) in Hall, Hbail.
  rewrite Forall_forall in Hall.
  split.
  - intros j' q' Hj'.
    apply execute_upload_event in Hj as (_ & _ & Hj).
    apply execute_upload_event in Hj' as (_ & _ & Hj').
    apply Hall in Hj' as (_ & _ & Hprev).
    destruct (decide (j' ≤ j)%nat) as [|Hgt]; [done|].
    apply Hall in Hj as (_ & Hlo & _).
    destruct (Hprev j) as (e' & He' & Hre'); [lia|]. congruence.
  - apply execute_upload_event in Hj as (Hv & Hf & Hj).
    specialize (Hbail j q e Hj Hapi Hre).
    rewrite (execute_upload cmd w Hv Hf), uploadDependencies_unfold.
    unfold Eff.trace, Eff.outcome in *.
    destruct (retry _ _ _) as [tr r]. cbn [fst snd] in *. subst r. cbn [fst snd].
    rewrite Hforb. cbv iota. split; [|split; [|done]].
    + find_event.
    + intros msg Hin. unfold preamble, flushed, commandInfo in Hin.
      rewrite !elem_of_app, !elem_of_cons, !elem_of_app in Hin.
      destruct Hin as [Hin|[Hin|[[Hin|Hin]|Hin]]].
      * destruct (truthy _); set_unfold in Hin; naive_solver.
      * done.
      * apply Hall in Hin. done.
      * set_unfold in Hin. naive_solver.
      * destruct (flush w); set_unfold in Hin; naive_solver.
Qed.

Lemma upload_bails_on_other_errors_witness :
  (∀ j' q', ApiUploadDependencies j' q' ∈ Eff.trace (execute cmd_ok w_refused) →
            (j' ≤ 2)%nat) ∧
  Stdout (renderFailedUpload "connect ECONNREFUSED") ∈ Eff.trace (execute cmd_ok w_refused) ∧
  Eff.outcome (execute cmd_ok w_refused) = inr (Some UPLOAD_ERROR_EXIT_CODE).
Proof.
  destruct (upload_bails_on_other_errors cmd_ok w_refused 2 (payload cmd_ok)
              (mkError "connect ECONNREFUSED" None)) as (Hlast & Hmsg & _ & Hout).
  - vm_compute. repeat first [apply list_elem_of_here | apply list_elem_of_further].
  - reflexivity.
  - left. reflexivity.
  - split; [exact Hlast|]. split; [exact Hmsg|exact Hout].
Defined.

(** X7: when the input is invalid or the file is missing, the run only
    writes to the standard output and error, a message on the standard
    error last: it sends no request and touches no metric. *)
Theorem upload_rejected_quietly (cmd : Command) (w : World) :
  invalidInput cmd = true ∨ existsSync w = false →
  Forall (fun ev => isOutput ev = true) (Eff.trace (execute cmd w)) ∧
  ∃ r, last (Eff.trace (execute cmd w)) = Some (Stderr r).
Proof.
  intros Hbad. destruct (invalidInput cmd) eqn:Hv.
  - destruct (execute_invalid cmd w Hv) as [r ->]. split; [by repeat constructor|eauto].
  - destruct Hbad as [|Hf]; [done|].
    rewrite (execute_missing_file cmd w Hv Hf). unfold Eff.trace, preamble. cbn [fst].
    split.
    + destruct (truthy _); by repeat constructor.
    + eexists. by rewrite last_snoc.
Qed.

Lemma upload_rejected_quietly_witness :
  Forall (fun ev => isOutput ev = true) (Eff.trace (execute cmd_ok w_no_file)) ∧
  ∃ r, last (Eff.trace (execute cmd_ok w_no_file)) = Some (Stderr r).
Proof.
  apply (upload_rejected_quietly cmd_ok w_no_file). right. reflexivity.
Defined.

End UploadMore.

(** ** More on the synthetics run-tests command *)

Module RunTestMore.
Import Interfaces RunTest RunTestExamples RunTestFacts.

(** *** The report order *)

Section Report.
Variable hasTestSucceeded : option (list PollResult) → bool.
Variable results : gmap string (list PollResult).

Abbreviation compare := (sortTestsByOutcome hasTestSucceeded results).
Abbreviation rank := (RunTest.rank hasTestSucceeded results).
Abbreviation ranked := (RunTest.ranked hasTestSucceeded results).

Lemma compare_rank t1 t2 : compare t1 t2 ≤ 0 ↔ (rank t1 ≤ rank t2)%nat.
Proof.
  unfold sortTestsByOutcome, RunTest.rank, success.
  destruct (hasTestSucceeded (results !! public_id t1)),
           (hasTestSucceeded (results !! public_id t2)),
           (isNonBlocking t1), (isNonBlocking t2); cbn; lia.
Qed.

Lemma rank_bound t : (rank t ≤ 3)%nat.
Proof.
  unfold RunTest.rank. destruct (success _ _ _), (isNonBlocking t); cbn; lia.
Qed.

(** Inserting goes past the tests of smaller rank and stops before the
    first test of the same or a larger rank. *)
Lemma insert_sorted_between x before after :
  Forall (fun y => (rank y < rank x)%nat) before →
  Forall (fun y => (rank x ≤ rank y)%nat) after →
  insert_sorted compare x (before ++ after) = before ++ x :: after.
Proof.
  intros Hbefore Hafter. induction Hbefore as [|y before Hy _ IH]; cbn.
  - destruct Hafter as [|y after Hy _]; cbn; [done|].
    apply compare_rank, Z.leb_le in Hy. by rewrite Hy.
  - destruct (Z.leb_spec (compare x y) 0) as [Hle|_].
    + apply compare_rank in Hle. lia.
    + by rewrite IH.
Qed.

Lemma ranked_rank k tests : Forall (fun t => rank t = k) (ranked k tests).
Proof.
  unfold RunTest.ranked. apply Forall_forall. intros t Ht.
  apply list_elem_of_In, List.filter_In in Ht as [_ Ht]. by apply Nat.eqb_eq in Ht.
Qed.

Lemma ranked_cons k t tests :
  ranked k (t :: tests) = if (rank t =? k)%nat then t :: ranked k tests else ranked k tests.
Proof. reflexivity. Qed.

(** X8: [tests.sort(sortTestsByOutcome(results))] lists the passing
    non-blocking tests, then the other passing tests, then the failing
    non-blocking tests, then the failing blocking tests; each group
    holds exactly the tests of its kind, in the order they had. *)
Theorem sort_by_outcome (tests : list Test) :
  sort compare tests
  = ranked 0 tests ++ ranked 1 tests ++ ranked 2 tests ++ ranked 3 tests.
Proof.
  induction tests as [|t tests IH]; [reflexivity|].
  change (sort compare (t :: tests)) with (insert_sorted compare t (sort compare tests)).
  rewrite IH, !ranked_cons.
  pose proof (rank_bound t) as Ht.
  pose proof (ranked_rank 0 tests) as H0. pose proof (ranked_rank 1 tests) as H1.
  pose proof (ranked_rank 2 tests) as H2. pose proof (ranked_rank 3 tests) as H3.
  assert (Hlt : ∀ k l, (k < rank t)%nat → Forall (fun y => rank y = k) l →
                       Forall (fun y => (rank y < rank t)%nat) l).
  { intros k l Hk Hl. eapply Forall_impl; [exact Hl|]. intros y Hy. cbn in Hy. lia. }
  assert (Hge : ∀ k l, (rank t ≤ k)%nat → Forall (fun y => rank y = k) l →
                       Forall (fun y => (rank t ≤ rank y)%nat) l).
  { intros k l Hk Hl. eapply Forall_impl; [exact Hl|]. intros y Hy. cbn in Hy. lia. }
  destruct (rank t) as [|[|[|[|r]]]] eqn:Hr; [| | | |lia]; cbn [Nat.eqb].
  - apply (insert_sorted_between t []); [constructor|].
    rewrite Hr. repeat (apply Forall_app; split); eauto with lia.
  - rewrite (insert_sorted_between t (ranked 0 tests)); [done| |]; rewrite Hr.
    + eauto with lia.
    + repeat (apply Forall_app; split); eauto with lia.
  - rewrite app_assoc.
    rewrite (insert_sorted_between t (ranked 0 tests ++ ranked 1 tests));
      [by rewrite <- app_assoc| |]; rewrite Hr.
    + apply Forall_app; split; eauto with lia.
    + apply Forall_app; split; eauto with lia.
  - rewrite !app_assoc.
    rewrite (insert_sorted_between t ((ranked 0 tests ++ ranked 1 tests) ++ ranked 2 tests));
      [by rewrite <- !app_assoc| |]; rewrite Hr.
    + repeat (apply Forall_app; split); eauto with lia.
    + eauto with lia.
Qed.

End Report.

(** *** The polling block *)

Section Polling.
Variable hasTestSucceeded : option (list PollResult) → bool.
Variable (w : World).

(** The loop over the tests when the reporter does not throw. *)
Lemma reportTests_ok results names : ∀ tests summary hs,
  (∀ t, t ∈ tests → testEnd w t = inr tt) →
  reportTests hasTestSucceeded w results names tests summary hs
  = (map (testEndOf results names) tests,
     inr (tally hasTestSucceeded results tests summary,
          hs && forallb (fun t => negb (blockingFailure hasTestSucceeded results t)) tests)).
Proof.
  unfold tally, failures, passes, blockingFailure.
  induction tests as [|t tests IH]; intros summary hs Hend; cbn [reportTests].
  - cbn. rewrite andb_true_r, !Z.add_0_r. by destruct summary.
  - unfold call, mbind, eff_bind, Eff.bind. fold (success hasTestSucceeded results t).
    rewrite (Hend t) by apply list_elem_of_here.
    rewrite IH by (intros t' Ht'; by apply Hend, list_elem_of_further).
    cbn [map List.filter forallb length app].
    destruct (success hasTestSucceeded results t); cbn [negb andb summary_failed
      summary_passed Interfaces.summary_skipped length].
    + do 3 f_equal. f_equal; lia.
    + destruct (isNonBlocking t); cbn [negb andb]; rewrite ?andb_false_r;
        do 3 f_equal; f_equal; lia.
Qed.

Lemma passes_failures results tests :
  passes hasTestSucceeded results tests + failures hasTestSucceeded results tests
  = Z.of_nat (length tests).
Proof.
  unfold passes, failures.
  induction tests as [|t tests IH]; cbn; [done|].
  destruct (success hasTestSucceeded results t); cbn; lia.
Qed.

Lemma passes_Permutation results tests tests' :
  tests ≡ₚ tests' →
  passes hasTestSucceeded results tests = passes hasTestSucceeded results tests'.
Proof.
  unfold passes. intros Hp. f_equal.
  induction Hp as [|t l l' Hp IH|t t' l|l l' l'' Hp IH Hp' IH']; cbn.
  - done.
  - destruct (success _ _ _); cbn; by rewrite IH.
  - destruct (success _ _ t), (success _ _ t'); done.
  - by rewrite IH.
Qed.

Lemma tally_Permutation results tests tests' summary :
  tests ≡ₚ tests' →
  tally hasTestSucceeded results tests summary
  = tally hasTestSucceeded results tests' summary.
Proof.
  intros Hp. unfold tally.
  by rewrite (passes_Permutation _ _ _ Hp), (failures_Permutation _ _ _ _ Hp).
Qed.

(** The events of the polling block. *)
Lemma pollAndReport_events config tts tests summary triggers trs tunnel_ :
  Forall (fun ev => isPollEvent ev = true)
    (Eff.trace (pollAndReport hasTestSucceeded w config tts tests summary
                              triggers trs tunnel_)).
Proof.
  rewrite pollAndReport_unfold. unfold Eff.trace.
  assert (Hstop : Forall (fun ev => isPollEvent ev = true) (stopEvents tunnel_)).
  { destruct tunnel_; by repeat constructor. }
  destruct (waitForResults _ _ _ _ _) as [e|rs]; cbn [fst].
  { by repeat constructor. }
  pose proof (reportTests_spec hasTestSucceeded w rs (locationNamesOf triggers)
                (sort (sortTestsByOutcome hasTestSucceeded rs) tests) summary true)
    as [_ Htr].
  assert (Htr' : Forall (fun ev => isPollEvent ev = true)
                   (reportTests hasTestSucceeded w rs (locationNamesOf triggers)
                      (sort (sortTestsByOutcome hasTestSucceeded rs) tests) summary true).1).
  { eapply Forall_impl; [exact Htr|]. by intros []. }
  destruct (reportTests _ _ _ _ _ _ _) as [tr [e|[summary' hs]]]; cbn [fst] in *.
  all: do 2 (apply List.Forall_cons; [done|]); apply Forall_app; split; [done|];
    by apply List.Forall_cons.
Qed.

End Polling.

(** X9: when the results arrive and the reporter does not throw, the
    polling block tells the reporter one [reportStart], one [testEnd] per
    test in the sorted order and one [runEnd], in this order, then stops
    the tunnel if there is one; the summary of [runEnd] has counted every
    test as passed or as failed, and the block returns 1 exactly when a
    blocking test failed. *)
Theorem report_lifecycle hasTestSucceeded (w : World) config tts tests summary
    triggers trs tunnel_ rs :
  waitForResults w trs (pollingTimeout config) tts tunnel_ = inr rs →
  (∀ t, t ∈ tests → testEnd w t = inr tt) →
  let summary' := tally hasTestSucceeded rs tests summary in
  pollAndReport hasTestSucceeded w config tts tests summary triggers trs tunnel_
  = (WaitForResults trs (pollingTimeout config) :: ReportStart
       :: map (testEndOf rs (locationNamesOf triggers))
              (sort (sortTestsByOutcome hasTestSucceeded rs) tests)
       ++ RunEnd summary' :: stopEvents tunnel_,
     inr (if forallb (fun t => negb (blockingFailure hasTestSucceeded rs t)) tests
          then 0 else 1)) ∧
  summary_passed summary' + summary_failed summary'
  = summary_passed summary + summary_failed summary + Z.of_nat (length tests) ∧
  Interfaces.summary_skipped summary' = Interfaces.summary_skipped summary.
Proof.
  intros Hwait Hend. cbn zeta. split; [|split; [|done]].
  - rewrite pollAndReport_unfold, Hwait.
    pose proof (sort_Permutation (sortTestsByOutcome hasTestSucceeded rs) tests) as Hperm.
    rewrite reportTests_ok.
    + cbn [andb]. by rewrite (forallb_Permutation _ _ _ Hperm),
                            (tally_Permutation _ _ _ _ _ Hperm).
    + intros t Ht. apply Hend. by rewrite <- Hperm.
  - unfold tally. cbn.
    pose proof (passes_failures hasTestSucceeded rs tests). lia.
Qed.

Lemma report_lifecycle_witness :
  pollAndReport hasTestSucceeded_ex w_ex config_ex tts_ex tests_ex summary_0
                triggers_ex triggerResults_ex None
  = ([WaitForResults triggerResults_ex 120000; ReportStart;
      testEndOf results_ex (locationNamesOf triggers_ex) test_B;
      testEndOf results_ex (locationNamesOf triggers_ex) test_C;
      testEndOf results_ex (locationNamesOf triggers_ex) test_A;
      RunEnd (mkSummary 2 1 0)],
     inr 1).
Proof.
  destruct (report_lifecycle hasTestSucceeded_ex w_ex config_ex tts_ex tests_ex summary_0
              triggers_ex triggerResults_ex None results_ex) as [Hrun _].
  - reflexivity.
  - intros t _. reflexivity.
  - rewrite Hrun. reflexivity.
Defined.


(** *** The run *)

(** Splits the count of a trace built with [::] and [++]. *)
Ltac count_parts := repeat first [rewrite count_app | rewrite count_cons].

Section Run.
Variable hasTestSucceeded : option (list PollResult) → bool.
Variable (cmd : Command) (w : World).

Lemma getApiHelper_cases config :
  if keysMissing cmd config then
    ∃ ev tr, getApiHelper cmd config
             = (ev :: tr, inl (mkError "API and/or Application keys are missing")) ∧
             Forall (fun ev => isReporterError ev = true) (ev :: tr)
  else ∃ config', getApiHelper cmd config = ([], inr config').
Proof.
  unfold keysMissing, getApiHelper.
  destruct (truthy (if truthy (appKey cmd) then _ else _));
    destruct (truthy (if truthy (apiKey cmd) then _ else _)); cbn.
  - eauto.
  - do 2 eexists. split; [reflexivity|]. by repeat constructor.
  - do 2 eexists. split; [reflexivity|]. by repeat constructor.
  - do 2 eexists. split; [reflexivity|]. by repeat constructor.
Qed.

(** The events of the selection: reporter errors and discovery calls. *)
Lemma selectTests_events :
  Forall (fun ev => isSelectEvent ev = true) (Eff.trace (selectTests cmd w)).
Proof.
  unfold selectTests, Eff.trace, mbind, eff_bind, Eff.bind.
  destruct (parseConfigFile w) as [e|config0]; cbn; [constructor|].
  pose proof (getApiHelper_cases config0) as Hkeys.
  destruct (keysMissing cmd config0).
  { destruct Hkeys as (ev & tr & -> & Hall). cbn. rewrite ?app_nil_r.
    eapply Forall_impl; [exact Hall|]. intros ev' Hev. unfold isSelectEvent.
    by rewrite Hev. }
  destruct Hkeys as (config & ->). cbn.
  destruct (publicIds cmd) as [|i ids]; cbn; [|constructor].
  unfold getTestsList.
  destruct (truthy (testSearchQuery cmd)); cbn.
  - unfold call. destruct (searchTests w _); cbn; by repeat constructor.
  - match goal with
    | |- context [forM ?f ?l] =>
        pose proof (forM_call_trace (fun ev => isSelectEvent ev = true)
                      GetSuites (getSuites w) l (fun _ => eq_refl)) as Htr;
        unfold Eff.trace in Htr; destruct (forM f l) as [tr [e|found]]
    end; cbn in *; rewrite ?app_nil_r; done.
Qed.

Lemma count_select p :
  (∀ ev, isSelectEvent ev = true → p ev = false) →
  count p (Eff.trace (selectTests cmd w)) = 0%nat.
Proof.
  intros Hp. apply count_none. eapply Forall_impl; [apply selectTests_events|]. done.
Qed.

Lemma count_selected p tr0 r :
  selectTests cmd w = (tr0, r) →
  (∀ ev, isSelectEvent ev = true → p ev = false) →
  count p tr0 = 0%nat.
Proof. intros Hsel Hp. rewrite <- (count_select p Hp). by rewrite Hsel. Qed.

Lemma count_poll p config tts tests summary triggers trs tunnel_ :
  (∀ ev, isPollEvent ev = true → p ev = false) →
  count p (Eff.trace (pollAndReport hasTestSucceeded w config tts tests summary
                                    triggers trs tunnel_)) = 0%nat.
Proof.
  intros Hp. apply count_none. eapply Forall_impl; [apply pollAndReport_events|]. done.
Qed.

(** The trace of a run whose tests were selected and fetched and whose
    tunnel block came through: what follows the call of [runTests] is
    nothing, the notice, or the polling block. *)
Lemma execute_after_tunnel tr0 config tts tests ov summary tr1 tunnel_ ov' :
  selectTests cmd w = (tr0, inr (config, tts)) → tts ≠ [] →
  getTestsToTrigger w tts = inr (tests, ov, summary) →
  openTunnel cmd w config (map public_id tests) ov = (tr1, inr (inr (tunnel_, ov'))) →
  ∃ rest,
    Eff.trace (execute hasTestSucceeded cmd w)
    = tr0 ++ GetTestsToTrigger tts :: tr1 ++ RunTests ov' :: rest ∧
    (rest = [] ∨ rest = [Log "No test to run."] ∨
     ∃ triggers trs,
       rest = Eff.trace (pollAndReport hasTestSucceeded w config tts tests summary
                                       triggers trs tunnel_)).
Proof.
  intros Hsel Hne Hfetch Hopen.
  rewrite (execute_unfold _ _ _ _ _ _ Hsel), (runSelected_unfold _ _ _ _ _ _ _ _ Hne Hfetch).
  rewrite Hopen. unfold Eff.trace. cbn [fst].
  destruct (runTests w ov') as [e|triggers]; cbn [fst].
  { exists []. split; [done|]. by left. }
  destruct tests as [|t tests]; cbn [fst].
  { exists [Log "No test to run."]. split; [done|]. right. by left. }
  destruct (results triggers) as [trs|]; cbn [fst].
  - destruct (pollAndReport _ _ _ _ _ _ _ _ _) as [tr2 r] eqn:Hpoll. cbn [fst].
    exists tr2. split; [done|]. right. right. exists triggers, trs. by rewrite Hpoll.
  - exists []. split; [done|]. by left.
Qed.

Lemma pollAndReport_code config tts tests summary triggers trs tunnel_ :
  let run := pollAndReport hasTestSucceeded w config tts tests summary
                           triggers trs tunnel_ in
  Eff.outcome run = inr 0 ∨ Eff.outcome run = inr 1.
Proof.
  cbn zeta. rewrite pollAndReport_unfold. unfold Eff.outcome.
  destruct (waitForResults _ _ _ _ _) as [e|rs]; [by right|].
  destruct (reportTests _ _ _ _ _ _ _) as [tr [e|[summary' [|]]]]; cbn; auto.
Qed.

Lemma runSelected_code config tts c :
  Eff.outcome (runSelected hasTestSucceeded cmd w config tts) = inr c → c = 0 ∨ c = 1.
Proof.
  destruct tts as [|tc tts]; [cbn; intros [= <-]; by left|].
  destruct (getTestsToTrigger w (tc :: tts)) as [e|[[tests ov] summary]] eqn:Hfetch.
  { unfold runSelected, call, mbind, eff_bind, Eff.bind. by rewrite Hfetch. }
  assert (Hne : tc :: tts ≠ []) by done.
  rewrite (runSelected_unfold _ _ _ _ _ _ _ _ Hne Hfetch).
  destruct (openTunnel _ _ _ _ _) as [tr1 [e|[code|[tunnel_ ov']]]] eqn:Hopen.
  - done.
  - rewrite openTunnel_unfold in Hopen.
    destruct (tunnelRequested cmd config); [|discriminate Hopen].
    destruct (getPresignedURL w (map public_id tests)) as [e|url]; [discriminate Hopen|].
    destruct (tunnelStart w (mkTunnel url (map public_id tests)));
      [|discriminate Hopen].
    injection Hopen as _ <-. intros [= <-]. by right.
  - destruct (runTests w ov') as [e|triggers]; [done|].
    destruct tests as [|t tests]; [intros [= <-]; by left|].
    destruct (results triggers) as [trs|]; [|done].
    pose proof (pollAndReport_code config (tc :: tts) (t :: tests) summary triggers
                  trs tunnel_) as Hcode.
    destruct (pollAndReport _ _ _ _ _ _ _ _ _) as [tr2 r]. unfold Eff.outcome in *.
    cbn [snd] in *. intros ->. destruct Hcode as [[= ->]|[= ->]]; auto.
Qed.

(** X11: when [execute] returns, it returns 0 or 1. *)
Theorem execute_exit_code (c : Z) :
  Eff.outcome (execute hasTestSucceeded cmd w) = inr c → c = 0 ∨ c = 1.
Proof.
  unfold execute, mbind, eff_bind, Eff.bind.
  destruct (selectTests cmd w) as [tr0 [e|[config tts]]]; [done|].
  pose proof (runSelected_code config tts c) as Hcode. unfold Eff.outcome in *.
  destruct (runSelected _ _ _ _ _) as [tr r]. exact Hcode.
Qed.

(** X12: when a tunnel is requested and starts, the presigned URL is
    asked for the public ids of the fetched tests, [runTests] is called
    once, and every payload it receives carries the tunnel information,
    the rest of the payload being as fetched. *)
Theorem tunnel_info_attached tr0 config tts tests ov summary url tunnelInfo :
  selectTests cmd w = (tr0, inr (config, tts)) → tts ≠ [] →
  getTestsToTrigger w tts = inr (tests, ov, summary) →
  tunnelRequested cmd config = true →
  getPresignedURL w (map public_id tests) = inr url →
  tunnelStart w (mkTunnel url (map public_id tests)) = inr tunnelInfo →
  let tr := Eff.trace (execute hasTestSucceeded cmd w) in
  ApiGetPresignedURL (map public_id tests) ∈ tr ∧
  count isRunTests tr = 1%nat ∧
  ∃ ov', RunTests ov' ∈ tr ∧
         Forall (fun testToTrigger => tunnel testToTrigger = Some tunnelInfo) ov' ∧
         map payload_public_id ov' = map payload_public_id ov ∧
         map payload_config ov' = map payload_config ov.
Proof.
  intros Hsel Hne Hfetch Hreq Hurl Hstart. cbn zeta.
  pose proof (openTunnel_unfold cmd w config (map public_id tests) ov) as Hopen.
  rewrite Hreq, Hurl, Hstart in Hopen.
  destruct (execute_after_tunnel _ _ _ _ _ _ _ _ _ Hsel Hne Hfetch Hopen)
    as (rest & -> & Hrest).
  assert (Hcount : count isRunTests rest = 0%nat).
  { destruct Hrest as [->|[->|(triggers & trs & ->)]]; [done|done|].
    apply count_poll. by intros []. }
  split; [|split].
  - apply elem_of_app. right. do 2 apply list_elem_of_further. apply list_elem_of_here.
  - count_parts. rewrite Hcount.
    rewrite (count_selected isRunTests _ _ Hsel) by (by intros []). reflexivity.
  - exists (map (withTunnel tunnelInfo) ov). split; [|split; [|split]].
    + apply elem_of_app. right. apply list_elem_of_further, elem_of_app. right.
      apply list_elem_of_here.
    + apply Forall_forall. intros p Hp.
      apply list_elem_of_In, List.in_map_iff in Hp as (p0 & <- & _). reflexivity.
    + rewrite List.map_map. reflexivity.
    + rewrite List.map_map. reflexivity.
Qed.

(** X13: when no tunnel is requested, the run asks for no presigned URL,
    starts and stops no tunnel, and calls [runTests] once, with the
    payloads as fetched. *)
Theorem no_tunnel_unless_requested tr0 config tts tests ov summary :
  selectTests cmd w = (tr0, inr (config, tts)) → tts ≠ [] →
  getTestsToTrigger w tts = inr (tests, ov, summary) →
  tunnelRequested cmd config = false →
  let tr := Eff.trace (execute hasTestSucceeded cmd w) in
  (∀ ids, ApiGetPresignedURL ids ∉ tr) ∧
  count isTunnelStart tr = 0%nat ∧ count isTunnelStop tr = 0%nat ∧
  count isRunTests tr = 1%nat ∧ RunTests ov ∈ tr.
Proof.
  intros Hsel Hne Hfetch Hreq. cbn zeta.
  pose proof (openTunnel_unfold cmd w config (map public_id tests) ov) as Hopen.
  rewrite Hreq in Hopen.
  destruct (execute_after_tunnel _ _ _ _ _ _ _ _ _ Hsel Hne Hfetch Hopen)
    as (rest & -> & Hrest).
  pose proof selectTests_events as Htr0. rewrite Hsel in Htr0.
  unfold Eff.trace in Htr0. cbn [fst] in Htr0. rewrite Forall_forall in Htr0.
  assert (Hpoll : ∀ triggers trs,
            Forall (fun ev => isPollEvent ev = true)
                   (Eff.trace (pollAndReport hasTestSucceeded w config tts tests summary
                                             triggers trs None)))
    by (intros; apply pollAndReport_events).
  split; [|split; [|split; [|split]]].
  - intros ids Hin. cbn [app] in Hin.
    rewrite elem_of_app, !elem_of_cons in Hin.
    destruct Hin as [Hin|[Hin|[Hin|Hin]]]; try done.
    + by apply Htr0 in Hin.
    + destruct Hrest as [->|[->|(triggers & trs & ->)]].
      * by apply elem_of_nil in Hin.
      * by apply list_elem_of_singleton in Hin.
      * specialize (Hpoll triggers trs). rewrite Forall_forall in Hpoll.
        by apply Hpoll in Hin.
  - count_parts. rewrite (count_selected isTunnelStart _ _ Hsel) by (by intros []).
    destruct Hrest as [->|[->|(triggers & trs & ->)]]; [done|done|].
    rewrite count_poll; [done|]. by intros [].
  - count_parts. rewrite (count_selected isTunnelStop _ _ Hsel) by (by intros []).
    destruct Hrest as [->|[->|(triggers & trs & ->)]]; [done|done|].
    by rewrite pollAndReport_stops_tunnel.
  - count_parts. rewrite (count_selected isRunTests _ _ Hsel) by (by intros []).
    destruct Hrest as [->|[->|(triggers & trs & ->)]]; [done|done|].
    rewrite count_poll; [done|]. by intros [].
  - apply elem_of_app. right. apply list_elem_of_further, list_elem_of_here.
Qed.

(** X14: when a tunnel is requested and the presigned URL cannot be
    obtained, [execute] throws that error: no tunnel is started and no
    test is triggered. *)
Theorem presigned_url_failure tr0 config tts tests ov summary e :
  selectTests cmd w = (tr0, inr (config, tts)) → tts ≠ [] →
  getTestsToTrigger w tts = inr (tests, ov, summary) →
  tunnelRequested cmd config = true →
  getPresignedURL w (map public_id tests) = inl e →
  Eff.outcome (execute hasTestSucceeded cmd w) = inl e ∧
  count isTunnelStart (Eff.trace (execute hasTestSucceeded cmd w)) = 0%nat ∧
  count isRunTests (Eff.trace (execute hasTestSucceeded cmd w)) = 0%nat.
Proof.
  intros Hsel Hne Hfetch Hreq Hurl.
  rewrite (execute_unfold _ _ _ _ _ _ Hsel), (runSelected_unfold _ _ _ _ _ _ _ _ Hne Hfetch).
  rewrite openTunnel_unfold, Hreq, Hurl. unfold Eff.outcome, Eff.trace. cbn [fst snd].
  split; [done|]. split.
  - count_parts.
    by rewrite (count_selected isTunnelStart _ _ Hsel) by (by intros []).
  - count_parts.
    by rewrite (count_selected isRunTests _ _ Hsel) by (by intros []).
Qed.

(** X15: when an application or API key is missing from both the command
    line and the configuration, [execute] throws before any collaborator is
    called: the trace holds reporter errors only, and at least one. *)
Theorem missing_keys config0 :
  parseConfigFile w = inr config0 → keysMissing cmd config0 = true →
  Eff.outcome (execute hasTestSucceeded cmd w)
  = inl (mkError "API and/or Application keys are missing") ∧
  Forall (fun ev => isReporterError ev = true) (Eff.trace (execute hasTestSucceeded cmd w)) ∧
  Eff.trace (execute hasTestSucceeded cmd w) ≠ [].
Proof.
  intros Hparse Hmissing.
  pose proof (getApiHelper_cases config0) as Hkeys. rewrite Hmissing in Hkeys.
  destruct Hkeys as (ev & tr & Hkeys & Hall).
  unfold execute, selectTests, mbind, eff_bind, Eff.bind.
  rewrite Hparse, Hkeys. cbn. done.
Qed.

(** X16: [getApiHelper] takes each key from the command line when it is
    given there and from the configuration otherwise, and changes nothing
    else of the configuration. *)
Theorem api_keys config0 :
  keysMissing cmd config0 = false →
  ∃ config,
    getApiHelper cmd config0 = ([], inr config) ∧
    truthy (cfg_apiKey config) = true ∧ truthy (cfg_appKey config) = true ∧
    cfg_apiKey config = (if truthy (apiKey cmd) then apiKey cmd else cfg_apiKey config0) ∧
    cfg_appKey config = (if truthy (appKey cmd) then appKey cmd else cfg_appKey config0) ∧
    global config = global config0 ∧ files config = files config0 ∧
    datadogSite config = datadogSite config0 ∧ subdomain config = subdomain config0 ∧
    pollingTimeout config = pollingTimeout config0 ∧ proxy config = proxy config0 ∧
    cfg_tunnel config = cfg_tunnel config0.
Proof.
  unfold keysMissing, getApiHelper.
  destruct (truthy (if truthy (appKey cmd) then _ else _)) eqn:Happ; [|done].
  destruct (truthy (if truthy (apiKey cmd) then _ else _)) eqn:Hapi; [|done].
  intros _. cbn. eexists. split; [reflexivity|]. cbn. by rewrite Happ, Hapi.
Qed.

(** X17: the public ids of the command line come first: with one given,
    neither the search nor the file discovery is consulted; without any,
    a search query comes before the files.  In both cases each selected
    test carries the global config override as it is. *)
Theorem selection_precedence config0 config :
  parseConfigFile w = inr config0 →
  getApiHelper cmd config0 = ([], inr config) →
  (publicIds cmd ≠ [] →
   selectTests cmd w
   = ([], inr (config,
               map (fun id_ => {| suite := "CLI Suite"; config := global config;
                                  id := id_ |})
                   (publicIds cmd)))) ∧
  (∀ found,
      publicIds cmd = [] → truthy (testSearchQuery cmd) = true →
      searchTests w (default ""%string (testSearchQuery cmd)) = inr found →
      selectTests cmd w
      = ([ApiSearchTests (default ""%string (testSearchQuery cmd))],
         inr (config,
              map (fun id_ => {| suite := "Query: " +:+ default ""%string (testSearchQuery cmd);
                                 config := global config; id := id_ |})
                  found))).
Proof.
  intros Hparse Hkeys. unfold selectTests, mbind, eff_bind, Eff.bind.
  rewrite Hparse, Hkeys. cbn [app]. split.
  - destruct (publicIds cmd) as [|i ids]; [done|]. reflexivity.
  - intros found -> Hq Hsearch. cbn [map]. unfold getTestsList, call.
    rewrite Hq. unfold mbind, eff_bind, Eff.bind. rewrite Hsearch. reflexivity.
Qed.

End Run.

(** *** File discovery *)

Lemma forM_call_ok {A B} (ev : A → Event) (answer : A → Error + B) l ys :
  Forall2 (fun x y => answer x = inr y) l ys →
  forM (fun x => call (ev x) (answer x)) l = (map ev l, inr ys).
Proof.
  induction 1 as [|x y l ys Hx _ IH]; [reflexivity|].
  cbn. unfold call, mbind, eff_bind, Eff.bind in *. rewrite Hx, IH. cbn.
  by rewrite app_nil_r.
Qed.

Lemma forM_call_inl {A B} (ev : A → Event) (answer : A → Error + B) l :
  (∀ e, Eff.outcome (forM (fun x => call (ev x) (answer x)) l) = inl e →
        ∃ x, x ∈ l ∧ answer x = inl e) ∧
  (∀ x e, x ∈ l → answer x = inl e →
          ∃ e', Eff.outcome (forM (fun x => call (ev x) (answer x)) l) = inl e').
Proof.
  unfold Eff.outcome. induction l as [|x l [IH1 IH2]]; cbn.
  - split; [done|]. intros x e Hx. by apply elem_of_nil in Hx.
  - unfold call, mbind, eff_bind, Eff.bind in *.
    destruct (answer x) as [e0|y] eqn:Hx; cbn.
    + split.
      * intros e [= <-]. exists x. split; [apply list_elem_of_here|done].
      * eauto.
    + destruct (forM _ l) as [tr [e0|ys]]; cbn in *.
      * split.
        -- intros e He. destruct (IH1 e He) as (x' & Hin & Hx'). exists x'.
           split; [by apply list_elem_of_further|done].
        -- eauto.
      * split; [done|]. intros x' e [->|Hin]%elem_of_cons Hx'; [congruence|].
        destruct (IH2 x' e Hin Hx') as [e' He']. done.
Qed.

Section Files.
Variable (cmd : Command) (w : World) (config : Config).

Abbreviation suiteTests := (RunTest.suiteTests config).

Lemma concat_suiteTests suites :
  concat (map suiteTests (filter (fun s => is_Some (content_tests s)) suites))
  = flat_map suiteTests suites.
Proof.
  induction suites as [|s suites IH]; [reflexivity|].
  rewrite filter_cons. cbn [flat_map]. rewrite <- IH.
  destruct (decide (is_Some (content_tests s))) as [|Hnone]; [reflexivity|].
  unfold suiteTests at 2. destruct (content_tests s); [|reflexivity].
  destruct Hnone. eauto.
Qed.

(** X18: without public ids and search query, when every glob can be
    read, the tests to trigger are the tests of the suites found, glob
    after glob, suite after suite, test after test; a suite without
    [tests] adds nothing. *)
Theorem file_discovery (found : list (list Suite)) :
  truthy (testSearchQuery cmd) = false →
  Forall2 (fun glob suites => getSuites w glob = inr suites)
          (default [files config] (fileGlobs cmd)) found →
  getTestsList cmd w config
  = (map GetSuites (default [files config] (fileGlobs cmd)),
     inr (flat_map suiteTests (concat found))).
Proof.
  intros Hq Hfound. unfold getTestsList. rewrite Hq.
  rewrite (forM_call_ok GetSuites (getSuites w) _ _ Hfound).
  unfold mbind, eff_bind, Eff.bind. cbn.
  rewrite !foldl_app_concat, app_nil_r. cbn [app].
  by rewrite <- concat_suiteTests.
Qed.

(** X19: the file discovery fails as a whole: it throws exactly when
    [getSuites] throws for one of the globs, with the error of one of
    them, and then gives no test at all. *)
Theorem file_discovery_fails :
  truthy (testSearchQuery cmd) = false →
  (∀ e, Eff.outcome (getTestsList cmd w config) = inl e →
        ∃ glob, glob ∈ default [files config] (fileGlobs cmd) ∧ getSuites w glob = inl e) ∧
  (∀ glob e, glob ∈ default [files config] (fileGlobs cmd) → getSuites w glob = inl e →
             ∃ e', Eff.outcome (getTestsList cmd w config) = inl e').
Proof.
  intros Hq. unfold getTestsList. rewrite Hq.
  destruct (forM_call_inl GetSuites (getSuites w) (default [files config] (fileGlobs cmd)))
    as [H1 H2].
  unfold Eff.outcome in *.
  destruct (forM _ _) as [tr [e0|suites]]; unfold mbind, eff_bind, Eff.bind; cbn in *.
  - split; [|eauto]. intros e [= <-]. by apply H1.
  - split; [done|]. intros glob e Hin Hglob.
    destruct (H2 glob e Hin Hglob) as [e' He']. done.
Qed.

End Files.

(** *** Locations and hosts *)

Lemma locationNames_fold locations i : ∀ m : LocationsMapping,
  foldl (fun (mapping : LocationsMapping) location =>
           <[location_id location := display_name location]> mapping) m locations !! i
  = match last (List.filter (sameLocation i) locations) with
    | Some location => Some (display_name location)
    | None => m !! i
    end.
Proof.
  induction locations as [|l locations IH]; intros m; cbn [foldl List.filter]; [done|].
  rewrite IH. unfold sameLocation at 2.
  destruct (Z.eqb_spec (location_id l) i) as [Heq|Hne].
  - rewrite last_cons. destruct (last _); [done|]. by rewrite Heq, lookup_insert_eq.
  - destruct (last _); [done|]. by rewrite lookup_insert_ne.
Qed.

(** X20: the location names given to the reporter map the id of every
    location of the trigger answer to its display name, the one of the
    last such location when an id occurs twice, and no other id. *)
Theorem location_names (triggers : Trigger) (i : Z) :
  locationNamesOf triggers !! i
  = display_name <$> last (List.filter (sameLocation i) (locations triggers)).
Proof.
  unfold locationNamesOf. rewrite locationNames_fold.
  by destruct (last _).
Qed.

(** X21: the intake URL handed to the API client differs from the API URL
    only for the sites datadoghq.com and datad0g.com, and only without a
    host override; with an override both are the override followed by
    the API path. *)
Theorem api_hosts (hostOverride : option string) (config : Config) :
  (baseIntakeUrl (apiConstructorArgs hostOverride config)
   ≠ baseUrl (apiConstructorArgs hostOverride config)
   ↔ truthy hostOverride = false ∧
     (datadogSite config = "datadoghq.com"%string ∨
      datadogSite config = "datad0g.com"%string)) ∧
  (truthy hostOverride = true →
   baseUrl (apiConstructorArgs hostOverride config)
   = default ""%string hostOverride +:+ "/api/v1" ∧
   baseIntakeUrl (apiConstructorArgs hostOverride config)
   = default ""%string hostOverride +:+ "/api/v1").
Proof.
  unfold apiConstructorArgs, getDatadogHost. cbn [baseIntakeUrl baseUrl andb].
  destruct (truthy hostOverride).
  { split; [|done]. split; [done|]. by intros [? _]. }
  split; [|done].
  destruct (String.eqb_spec (datadogSite config) "datadoghq.com") as [->|Hcom].
  { cbn. split; [auto|]. intros _ [=]. }
  destruct (String.eqb_spec (datadogSite config) "datad0g.com") as [->|Hd0g].
  { cbn. split; [auto|]. intros _ [=]. }
  cbn [orb]. split; [done|]. intros [_ [?|?]]; done.
Qed.

Lemma api_hosts_witness :
  baseUrl (apiConstructorArgs (Some "http://localhost:8080"%string) config_ex)
  = "http://localhost:8080/api/v1"%string ∧
  baseIntakeUrl (apiConstructorArgs (Some "http://localhost:8080"%string) config_ex)
  = "http://localhost:8080/api/v1"%string.
Proof.
  apply (api_hosts (Some "http://localhost:8080"%string) config_ex). reflexivity.
Defined.

(** *** The properties on examples *)


Lemma execute_exit_code_witness :
  Eff.outcome (execute hasTestSucceeded_ex cmd_ex w_ex) = inr 1 ∧ (1 = 0 ∨ 1 = 1).
Proof.
  split; [reflexivity|].
  apply (execute_exit_code hasTestSucceeded_ex cmd_ex w_ex 1). reflexivity.
Defined.

Lemma tunnel_info_attached_witness :
  ApiGetPresignedURL (map public_id tests_ex)
    ∈ Eff.trace (execute hasTestSucceeded_ex cmd_tunnel w_ex) ∧
  count isRunTests (Eff.trace (execute hasTestSucceeded_ex cmd_tunnel w_ex)) = 1%nat ∧
  ∃ ov', RunTests ov' ∈ Eff.trace (execute hasTestSucceeded_ex cmd_tunnel w_ex) ∧
         Forall (fun testToTrigger => tunnel testToTrigger = Some tunnelInfo_ex) ov' ∧
         map payload_public_id ov' = map payload_public_id payloads_ex ∧
         map payload_config ov' = map payload_config payloads_ex.
Proof.
  apply (tunnel_info_attached hasTestSucceeded_ex cmd_tunnel w_ex [] config_ex tts_cli
           tests_ex payloads_ex summary_0 "wss://tunnel" tunnelInfo_ex);
    try reflexivity.
  discriminate.
Defined.

Lemma no_tunnel_unless_requested_witness :
  (∀ ids, ApiGetPresignedURL ids ∉ Eff.trace (execute hasTestSucceeded_ex cmd_ex w_ex)) ∧
  count isTunnelStart (Eff.trace (execute hasTestSucceeded_ex cmd_ex w_ex)) = 0%nat ∧
  count isTunnelStop (Eff.trace (execute hasTestSucceeded_ex cmd_ex w_ex)) = 0%nat ∧
  count isRunTests (Eff.trace (execute hasTestSucceeded_ex cmd_ex w_ex)) = 1%nat ∧
  RunTests payloads_ex ∈ Eff.trace (execute hasTestSucceeded_ex cmd_ex w_ex).
Proof.
  apply (no_tunnel_unless_requested hasTestSucceeded_ex cmd_ex w_ex
           [GetSuites (files config_ex)] config_ex tts_ex tests_ex payloads_ex summary_0);
    try reflexivity.
  discriminate.
Defined.

Lemma presigned_url_failure_witness :
  Eff.outcome (execute hasTestSucceeded_ex cmd_tunnel w_no_url) = inl (mkError "Forbidden") ∧
  count isTunnelStart (Eff.trace (execute hasTestSucceeded_ex cmd_tunnel w_no_url)) = 0%nat ∧
  count isRunTests (Eff.trace (execute hasTestSucceeded_ex cmd_tunnel w_no_url)) = 0%nat.
Proof.
  apply (presigned_url_failure hasTestSucceeded_ex cmd_tunnel w_no_url [] config_ex tts_cli
           tests_ex payloads_ex summary_0 (mkError "Forbidden"));
    try reflexivity.
  discriminate.
Defined.

Lemma missing_keys_witness :
  Eff.outcome (execute hasTestSucceeded_ex cmd_ex w_no_api_key)
  = inl (mkError "API and/or Application keys are missing") ∧
  Forall (fun ev => isReporterError ev = true)
         (Eff.trace (execute hasTestSucceeded_ex cmd_ex w_no_api_key)) ∧
  Eff.trace (execute hasTestSucceeded_ex cmd_ex w_no_api_key) ≠ [].
Proof.
  apply (missing_keys hasTestSucceeded_ex cmd_ex w_no_api_key config_no_api_key);
    reflexivity.
Defined.

Lemma api_keys_witness :
  ∃ config,
    getApiHelper cmd_globs config_no_api_key = ([], inr config) ∧
    cfg_apiKey config = Some "cli-api"%string ∧ cfg_appKey config = Some "app"%string.
Proof.
  destruct (api_keys cmd_globs config_no_api_key) as (config & Hrun & _ & _ & Hapi & Happ & _).
  - reflexivity.
  - exists config. split; [exact Hrun|]. split; [exact Hapi|exact Happ].
Defined.

Lemma selection_precedence_witness :
  selectTests cmd_tunnel w_search = ([], inr (config_ex, tts_cli)) ∧
  Eff.trace (selectTests cmd_search w_search) = [ApiSearchTests "tag:ci"].
Proof.
  split.
  - destruct (selection_precedence cmd_tunnel w_search config_ex config_ex eq_refl eq_refl)
      as [Hcli _].
    apply Hcli. discriminate.
  - destruct (selection_precedence cmd_search w_search config_ex config_ex eq_refl eq_refl)
      as [_ Hsearch].
    rewrite (Hsearch ["aaa-aaa-aaa"%string; "bbb-bbb-bbb"%string]); reflexivity.
Defined.

Lemma file_discovery_witness :
  getTestsList cmd_ex w_search config_ex = ([GetSuites (files config_ex)], inr [tc_ex]).
Proof.
  rewrite (file_discovery cmd_ex w_search config_ex
             [[suite_ex; mkSuite "empty.synthetics.json" None]]).
  - reflexivity.
  - reflexivity.
  - repeat constructor.
Defined.

Lemma file_discovery_fails_witness :
  ∃ e, Eff.outcome (getTestsList cmd_globs w_search config_ex) = inl e.
Proof.
  destruct (file_discovery_fails cmd_globs w_search config_ex eq_refl) as [_ Hfails].
  apply (Hfails "broken/*.json"%string (mkError "Unexpected token")).
  - apply list_elem_of_further, list_elem_of_here.
  - reflexivity.
Defined.

End RunTestMore.
